(** * The three Discord bots of [index.js]: music, giveaway and poll

    The handlers of [index.js] are glue around discord.js, Shoukaku and
    Kazagumo.  Each handler is embedded as a function over the state it
    touches (the in-process maps, the pending timers, the library's player
    object); what an awaited library call answers, what [Math.random]
    returns and which event arrives next are inputs of the functions.
    Strings are byte strings (the source's UTF-8 text).

    The first part holds the embedding, one module per concern; the second
    part, [Properties], holds what is proved about it. *)

From Stdlib Require Import ZArith Lia.
From stdpp Require Import gmap strings list fin_maps pretty.

Local Open Scope string_scope.
Local Open Scope list_scope.
Local Open Scope nat_scope.

(** ** JavaScript values the handlers lean on *)

Module Js.

(** [String.prototype.includes]: the needle occurs somewhere in the
    haystack. *)
Fixpoint includes (hay needle : string) : bool :=
  String.prefix needle hay ||
  match hay with
  | EmptyString => false
  | String _ rest => includes rest needle
  end.

(** A string in a condition: [undefined], [null] and the empty string are
    falsy. *)
Definition truthy (s : option string) : bool :=
  match s with
  | None => false
  | Some EmptyString => false
  | Some (String _ _) => true
  end.

(** [a || b] on strings. *)
Definition or_else (s : option string) (dflt : string) : string :=
  if truthy s then default dflt s else dflt.

(** A value of [Math.random()]: a rational of [0,1), kept as the pair
    [(p, q)] that stands for [p / (p + q + 1)]. *)
Record random_value := Random { rv_num : nat; rv_slack : nat }.

(** [Math.floor(Math.random() * n)]. *)
Definition random_below (r : random_value) (n : nat) : nat :=
  (rv_num r * n) `div` (rv_num r + rv_slack r + 1).

(** What an awaited call or a handler comes to. *)
Inductive completion (A : Type) : Type :=
| Returned (a : A)
| Threw.
Global Arguments Returned {A} a.
Global Arguments Threw {A}.

(** A handle of [setTimeout]. *)
Definition timer_id := nat.

End Js.

Import Js.

(** ** Lavalink socket errors: the reconnect delay (music bot) *)

Module Reconnect.

(** The [error] argument of the handler: an object with an optional
    [message]. *)
Record socket_error := { message : option string }.

(** What the handler asks of the event loop. *)
Inductive task := ShoukakuReconnect (name : string).

Record scheduled := SetTimeout { delay : Z; run : task }.

(** The branch on the message text, lines 150-161. *)
Definition reconnectDelay (msg : string) : Z :=
  if includes msg "AbortError" then 5000
  else if includes msg "ECONNREFUSED" || includes msg "Connection refused" then 15000
  else if includes msg "Transport failed" || includes msg "Connection reset" then 7500
  else 10000.

(** [shoukaku.on('error', (name, error) => ...)].  Reading [error.message]
    of a missing error object throws before anything is scheduled. *)
Definition on_error (name : string) (error : option socket_error)
  : completion (list scheduled) :=
  match error with
  | None => Threw
  | Some e =>
      if truthy (message e)
      then Returned [SetTimeout (reconnectDelay (default "" (message e)))
                                (ShoukakuReconnect name)]
      else Returned []
  end.

(** [shoukaku.on('close', (name, code, reason) => ...)], lines 116-129. *)
Definition on_close (name : string) (code : Z) : list scheduled :=
  if bool_decide (code ≠ 1000%Z) && bool_decide (code < 4000)%Z
  then [SetTimeout 5000 (ShoukakuReconnect name)]
  else [].

(** [shoukaku.on('disconnect', (name, players, moved) => ...)], lines
    131-143; each player stands for what its
    [player.connection.disconnect()] comes to.  The result is the number of
    connections closed and what was scheduled. *)
Fixpoint disconnect_each (players : list (completion unit)) : completion nat :=
  match players with
  | [] => Returned 0
  | Threw :: _ => Threw
  | Returned _ :: rest =>
      match disconnect_each rest with
      | Returned n => Returned (S n)
      | Threw => Threw
      end
  end.

Definition on_disconnect (name : string) (players : list (completion unit))
    (moved : bool) : completion (nat * list scheduled) :=
  if moved then Returned (0, [])
  else
    match disconnect_each players with
    | Returned n => Returned (n, [SetTimeout 5000 (ShoukakuReconnect name)])
    | Threw => Threw
    end.

(** What can come from the node's socket. *)
Inductive socket_event :=
| Close (code : Z)
| Disconnect (players : list (completion unit)) (moved : bool)
| SocketError (error : option socket_error).

(** The reconnects a socket event of node [name] schedules; none when the
    handler throws. *)
Definition reconnects (name : string) (e : socket_event) : list scheduled :=
  match e with
  | Close code => on_close name code
  | Disconnect players moved =>
      match on_disconnect name players moved with
      | Returned (_, scheduled) => scheduled
      | Threw => []
      end
  | SocketError error =>
      match on_error name error with
      | Returned scheduled => scheduled
      | Threw => []
      end
  end.

End Reconnect.

(** ** The keep-alive routes of the three bots *)

Module KeepAlive.

(** What a route handler may read of a GET request. *)
Record request := {
  path : string;
  query : string;
  headers : list (string * string)
}.

(** [client.user] of the giveaway bot: set once the login went through. *)
Record client_user := { username : string }.

(** Music bot, line 1287. *)
Definition music_root (req : request) : string := "Bot is running!".

(** Giveaway bot, lines 1731-1733:
    [client.user?.username || 'Giveaway Bot'] then [ is running!]. *)
Definition giveaway_root (user : option client_user) (req : request) : string :=
  or_else (username <$> user) "Giveaway Bot" +:+ " is running!".

(** Poll bot, line 1850. *)
Definition poll_root (req : request) : string := "Bot is online".

Definition probe : request := {| path := "/"; query := ""; headers := [] |}.

End KeepAlive.

(** ** The poll bot *)

Module Poll.

(** Lines 1766-1771. *)
Definition emojiMap : list string :=
  [ "🇦"; "🇧"; "🇨"; "🇩"; "🇪";
    "🇫"; "🇬"; "🇭"; "🇮"; "🇯";
    "🇰"; "🇱"; "🇲"; "🇳"; "🇴";
    "🇵"; "🇶"; "🇷"; "🇸"; "🇹" ].

(** The regional-indicator symbol of the [i]-th letter, U+1F1E6 + i, in
    UTF-8. *)
Definition regional_indicator (i : nat) : string :=
  String (Ascii.ascii_of_nat 240) (String (Ascii.ascii_of_nat 159)
    (String (Ascii.ascii_of_nat 135) (String (Ascii.ascii_of_nat (166 + i)) ""))).

(** [`choice_${String.fromCharCode(97 + i)}`]. *)
Definition choice_key (i : nat) : string :=
  "choice_" +:+ String (Ascii.ascii_of_nat (97 + i)) "".

Record choice := Choice { emoji : string; label : string }.

Record interaction := {
  isChatInputCommand : bool;
  commandName : string;
  (** [interaction.options.getString(key)] is the lookup; a missing option
      gives [null]. *)
  options : gmap string string
}.

(** What Discord answers to the handler's calls. *)
Record discord := {
  reply_ok : bool;
  react_ok : string → bool
}.

(** One turn of the loop of lines 1814-1818. *)
Definition push_choice (opts : gmap string string) (choices : list choice) (i : nat)
  : list choice :=
  match opts !! choice_key i with
  | Some (String c v) => choices ++ [Choice (default "" (emojiMap !! i)) (String c v)]
  | _ => choices
  end.

Definition collect_choices (opts : gmap string string) : list choice :=
  foldl (push_choice opts) [] (seq 0 20).

(** Lines 1829-1835. *)
Definition fieldContent (choices : list choice) : string :=
  if decide (2 ≤ length choices)
  then foldl (λ acc c, acc +:+ "

" +:+ emoji c +:+ " **" +:+ label c +:+ "**") "" choices
  else "

👍 **Yes**

👎 **No**".

(** [for (const c of ...) await reply.react(c.emoji)]: the reactions put on
    the message, and whether the loop ran to its end. *)
Fixpoint react_each (d : discord) (emojis : list string) : list string * bool :=
  match emojis with
  | [] => ([], true)
  | e :: rest =>
      if react_ok d e
      then let '(done, ok) := react_each d rest in (e :: done, ok)
      else ([], false)
  end.

Record outcome := {
  field : string;
  reactions : list string;
  finished : bool
}.

(** The handler of lines 1808-1847; [None] when the interaction is not a
    [/poll] command. *)
Definition on_interaction (d : discord) (i : interaction) : option outcome :=
  if negb (isChatInputCommand i) || negb (String.eqb (commandName i) "poll") then None
  else
    let choices := collect_choices (options i) in
    let content := fieldContent choices in
    if negb (reply_ok d) then
      Some {| field := content; reactions := []; finished := false |}
    else
      let '(done, ok) :=
        react_each d (if decide (2 ≤ length choices)
                      then emoji <$> choices
                      else ["👍"; "👎"]) in
      Some {| field := content; reactions := done; finished := ok |}.

(** The indices of the options that carry a value, in option order. *)
Definition provided (opts : gmap string string) : list nat :=
  filter (λ i, truthy (opts !! choice_key i) = true) (seq 0 20).

(** The choice the handler builds for option [k]. *)
Definition choice_of (opts : gmap string string) (k : nat) : choice :=
  Choice (regional_indicator k) (default "" (opts !! choice_key k)).

Definition demo_interaction : interaction :=
  {| isChatInputCommand := true;
     commandName := "poll";
     options := {[ "question" := "Lunch?"; "choice_b" := "Soup"; "choice_d" := "Rice" ]} |}.

Definition demo_discord : discord :=
  {| reply_ok := true; react_ok := λ _, true |}.

(** A poll with a single choice: option c alone. *)
Definition lone_interaction : interaction :=
  {| isChatInputCommand := true;
     commandName := "poll";
     options := {[ "question" := "Again?"; "choice_c" := "Maybe" ]} |}.

End Poll.

(** ** The giveaway bot *)

Module Giveaway.

(** Discord identifiers (message, channel and user ids) are strings. *)
Abbreviation snowflake := string (only parsing).

Record user := { id : snowflake; bot : bool }.

(** A value of [activeGiveaways]. *)
Record giveaway := {
  channelId : snowflake;
  prize : string;
  winners : Z;
  timeout : timer_id
}.

(** A value of [endedGiveaways]. *)
Record ended := {
  ended_channelId : snowflake;
  ended_prize : string;
  ended_winners : Z;
  endedAt : Z;
  endMessageId : snowflake
}.

(** The callback both start commands hand to [setTimeout]:
    [endGiveaway(giveawayMessage.id, channel)]. *)
Inductive task := EndGiveaway (messageId channel : snowflake).

Record state := {
  activeGiveaways : gmap snowflake giveaway;
  endedGiveaways : gmap snowflake ended;
  (** the pending timers of the event loop, each with its delay *)
  timers : gmap timer_id (option Z * task);
  next_timer : timer_id;
  (** The ids of the giveaway messages Discord has created for the bot so
      far.  No variable of the program: it records that Discord never hands
      out an id twice. *)
  issued : gset snowflake
}.

Definition initial : state :=
  {| activeGiveaways := ∅; endedGiveaways := ∅; timers := ∅; next_timer := 0; issued := ∅ |}.

(** A fetched message, as far as the handlers read it:
    [reactions.cache.get('🎉')] (absent when nobody holds that reaction in
    the cache) and what [users.fetch()] comes to.  The users of the
    collection are listed in its order. *)
Record message := { party_users : option (completion (list user)) }.

(** What the outside answers during one handler run. *)
Record world := {
  (** [channel.messages.fetch(id).catch(() => null)] *)
  fetch_message : snowflake → snowflake → option message;
  (** [client.channels.fetch(id)] resolves *)
  fetch_channel : snowflake → bool;
  (** [channel.send(...)]: the id of the message created *)
  send : snowflake → completion snowflake;
  (** [message.react('🎉')] resolves *)
  react : bool;
  (** the successive values of [Math.random()] *)
  random : nat → random_value;
  (** [new Date()] *)
  now : Z;
  (** [parseInt(text)], [None] for [NaN] *)
  parseInt : string → option Z;
  (** [ms(text)], [None] for [undefined] *)
  ms : string → option Z
}.

(** [`<@${id}>`]; an index out of range would read [undefined]. *)
Definition mention (who : option snowflake) : string :=
  "<@" +:+ default "undefined" who +:+ ">".

(** [reactions.filter(user => !user.bot).map(user => user.id)]. *)
Definition participants_of (users : list user) : list snowflake :=
  id <$> filter (λ u, bot u = false) users.

(** The loop of lines 1406-1410 and 1450-1454, [i] being its counter.  Each
    turn splices one participant out, so [length participants] turns of
    fuel let it run to its own exit ([draw_fuel_enough]). *)
Fixpoint draw (fuel : nat) (rnd : nat → random_value) (count : Z) (i : nat)
    (participants : list snowflake) (picked : list string) : list string :=
  match fuel with
  | O => picked
  | S fuel' =>
      if bool_decide (Z.of_nat i < count)%Z && bool_decide (0 < length participants)
      then
        let winnerIndex := random_below (rnd i) (length participants) in
        draw fuel' rnd count (S i) (delete winnerIndex participants)
             (picked ++ [mention (participants !! winnerIndex)])
      else picked
  end.

Definition pick_winners (rnd : nat → random_value) (count : Z)
    (participants : list snowflake) : list string :=
  draw (length participants) rnd count 0 participants [].

(** [winners.join(', ')]. *)
Fixpoint join (sep : string) (l : list string) : string :=
  match l with
  | [] => ""
  | [x] => x
  | x :: rest => x +:+ sep +:+ join sep rest
  end.

Definition winnerText (ws : list string) : string :=
  if bool_decide (0 < length ws) then join ", " ws else "No valid participants".

(** What a handler shows.  The texts leave out the bot's user name where
    the source interpolates it. *)
Inductive output :=
| Reply (text : string)
| Post (channel : snowflake) (title description : string)
| Edit (channel message : snowflake) (title description : string).

Definition endDescription (g : giveaway) (ws : list string) : string :=
  "**Prize:** " +:+ prize g +:+ "
**Winners:** " +:+ winnerText ws.

(** [endGiveaway(messageId, channel)], lines 1392-1435: what the call
    comes to, what it posted, and the state it leaves. *)
Definition endGiveaway (w : world) (messageId channel : snowflake) (s : state)
  : completion bool * list output * state :=
  match activeGiveaways s !! messageId with
  | None => (Returned false, [], s)
  | Some g =>
      let s1 := {| activeGiveaways := delete messageId (activeGiveaways s);
                   endedGiveaways := endedGiveaways s;
                   timers := delete (timeout g) (timers s);
                   next_timer := next_timer s;
                   issued := issued s |} in
      match fetch_message w channel messageId with
      | None => (Returned false, [], s1)
      | Some m =>
          match party_users m with
          | None => (Threw, [], s1)
          | Some Threw => (Threw, [], s1)
          | Some (Returned users) =>
              let ws := pick_winners (random w) (winners g) (participants_of users) in
              match send w channel with
              | Threw => (Threw, [], s1)
              | Returned endMessage =>
                  (Returned true,
                   [Post channel "🎉 GIVEAWAY ENDED 🎉" (endDescription g ws)],
                   {| activeGiveaways := activeGiveaways s1;
                      endedGiveaways :=
                        <[messageId := {| ended_channelId := channel;
                                          ended_prize := prize g;
                                          ended_winners := winners g;
                                          endedAt := now w;
                                          endMessageId := endMessage |}]>
                          (endedGiveaways s1);
                      timers := timers s1;
                      next_timer := next_timer s1;
                      issued := issued s1 |})
              end
          end
      end
  end.

(** The object [rerollGiveaway] returns. *)
Record reroll := {
  reroll_prize : string;
  reroll_winners : list string;
  reroll_channel : snowflake;
  reroll_endMessageId : snowflake
}.

(** [rerollGiveaway(messageId)], lines 1438-1462; [Returned None] is its
    [null]. *)
Definition rerollGiveaway (w : world) (messageId : snowflake) (s : state)
  : completion (option reroll) :=
  match endedGiveaways s !! messageId with
  | None => Returned None
  | Some g =>
      if negb (fetch_channel w (ended_channelId g)) then Threw
      else
        match fetch_message w (ended_channelId g) messageId with
        | None => Returned None
        | Some m =>
            match party_users m with
            | None => Threw
            | Some Threw => Threw
            | Some (Returned users) =>
                Returned (Some
                  {| reroll_prize := ended_prize g;
                     reroll_winners :=
                       pick_winners (random w) (ended_winners g) (participants_of users);
                     reroll_channel := ended_channelId g;
                     reroll_endMessageId := endMessageId g |})
            end
        end
  end.

(** A message that reached the prefix handler.  JavaScript's own string
    functions have already cut the text into the command (lower-cased) and
    its arguments. *)
Record prefix_message := {
  author_bot : bool;
  has_prefix : bool;
  command : string;
  args : list string;
  (** [message.member.permissions.has('ManageMessages')] *)
  member_can_manage : bool;
  (** [message.mentions.channels.first()] *)
  mentioned_channel : option snowflake;
  (** [message.channel] *)
  message_channel : snowflake
}.

(** The slash commands with their options. *)
Inductive slash :=
| SlashStart (channel : snowflake) (duration prize : string) (count : Z)
| SlashEnd (message_id : string)
| SlashReroll (message_id : string)
| SlashOther (name : string).

Record interaction := {
  isCommand : bool;
  (** [interaction.memberPermissions.has('ManageMessages')] *)
  can_manage : bool;
  (** [interaction.channel] *)
  interaction_channel : snowflake;
  slash_command : slash
}.

Inductive event :=
| MessageCreate (m : prefix_message)
| InteractionCreate (i : interaction)
| TimerFired (t : timer_id).

Definition result : Type := completion unit * list output * state.

Definition replied (text : string) (s : state) : result :=
  (Returned (), [Reply text], s).

Definition giveawayDescription (duration prize : string) (count : Z) : string :=
  "**Prize:** " +:+ prize +:+ "
**Duration:** " +:+ duration +:+ "
**Winners:** " +:+ pretty count +:+ "

React with 🎉 to enter!".

(** Lines 1488-1503 and, word for word, 1615-1630: post the giveaway,
    react to it, set the timer, record the entry. *)
Definition start_giveaway (w : world) (channel : snowflake) (duration prize : string)
    (count : Z) (s : state) : result :=
  let embed := Post channel "🎉 GIVEAWAY 🎉" (giveawayDescription duration prize count) in
  match send w channel with
  | Threw => (Threw, [], s)
  | Returned giveawayMessage =>
      if negb (react w) then (Threw, [embed], s)
      else
        let timer := next_timer s in
        (Returned (),
         [embed; Reply ("Giveaway started in <#" +:+ channel +:+ ">!")],
         {| activeGiveaways :=
              <[giveawayMessage := {| channelId := channel; prize := prize;
                                      winners := count; timeout := timer |}]>
                (activeGiveaways s);
            endedGiveaways := endedGiveaways s;
            timers := <[timer := (ms w duration, EndGiveaway giveawayMessage channel)]>
                        (timers s);
            next_timer := S timer;
            issued := {[giveawayMessage]} ∪ issued s |})
  end.

(** The tail of both [end] commands. *)
Definition end_command (w : world) (messageId channel : snowflake) (s : state) : result :=
  match endGiveaway w messageId channel s with
  | (Returned true, out, s') =>
      (Returned (), out ++ [Reply "ended the giveaway successfully!"], s')
  | (Returned false, out, s') =>
      (Returned (), out ++ [Reply "Could not find an active giveaway with that ID."], s')
  | (Threw, out, s') => (Threw, out, s')
  end.

(** The tail of both [reroll] commands. *)
Definition reroll_command (w : world) (messageId : snowflake) (s : state) : result :=
  match rerollGiveaway w messageId s with
  | Threw => (Threw, [], s)
  | Returned None => replied "Could not find an ended giveaway with that ID." s
  | Returned (Some r) =>
      let description := "**Prize:** " +:+ reroll_prize r +:+ "
**New Winners:** " +:+ winnerText (reroll_winners r) in
      let shown :=
        match fetch_message w (reroll_channel r) (reroll_endMessageId r) with
        | Some _ => Edit (reroll_channel r) (reroll_endMessageId r)
                         "🎉 GIVEAWAY REROLLED 🎉" description
        | None => Post (reroll_channel r) "🎉 GIVEAWAY REROLLED 🎉" description
        end in
      (Returned (), [shown; Reply "rerolled the giveaway successfully!"], s)
  end.

(** [args.slice(2, args.length - 1)]. *)
Definition prize_words (args : list string) : list string :=
  take (length args - 1 - 2) (drop 2 args).

(** [client.on('messageCreate', ...)], lines 1465-1597.  The commands that
    only show something ([stats], [invite], [support], [help]) are kept as
    one reply. *)
Definition on_message (w : world) (m : prefix_message) (s : state) : result :=
  if author_bot m || negb (has_prefix m) then (Returned (), [], s)
  else if String.eqb (command m) "start" then
    if negb (member_can_manage m) then
      replied "You need the Manage Messages permission to start giveaways." s
    else
      match mentioned_channel m with
      | None => replied "Please mention a valid channel." s
      | Some channel =>
          if negb (truthy (args m !! 1)) then
            replied "Please specify a duration (e.g., 1d, 2h)." s
          else
            let duration := default "" (args m !! 1) in
            let prize := join " " (prize_words (args m)) in
            if negb (truthy (Some prize)) then replied "Please specify a prize." s
            else
              match parseInt w (default "undefined" (last (args m))) with
              | None => replied "Please specify a valid number of winners." s
              | Some count =>
                  if bool_decide (count < 1)%Z then
                    replied "Please specify a valid number of winners." s
                  else start_giveaway w channel duration prize count s
              end
      end
  else if String.eqb (command m) "end" then
    if negb (member_can_manage m) then
      replied "You need the Manage Messages permission to end giveaways." s
    else if negb (truthy (args m !! 0)) then
      replied "Please provide a giveaway message ID." s
    else end_command w (default "" (args m !! 0)) (message_channel m) s
  else if String.eqb (command m) "reroll" then
    if negb (member_can_manage m) then
      replied "You need the Manage Messages permission to reroll giveaways." s
    else if negb (truthy (args m !! 0)) then
      replied "Please provide an ended giveaway message ID." s
    else reroll_command w (default "" (args m !! 0)) s
  else if bool_decide (command m ∈ ["stats"; "invite"; "support"; "help"]) then
    replied (command m) s
  else (Returned (), [], s).

(** [client.on('interactionCreate', ...)], lines 1600-1729. *)
Definition on_interaction (w : world) (i : interaction) (s : state) : result :=
  if negb (isCommand i) then (Returned (), [], s)
  else
    match slash_command i with
    | SlashStart channel duration prize count =>
        if negb (can_manage i) then
          replied "You need the Manage Messages permission to start giveaways." s
        else start_giveaway w channel duration prize count s
    | SlashEnd messageId =>
        if negb (can_manage i) then
          replied "You need the Manage Messages permission to end giveaways." s
        else end_command w messageId (interaction_channel i) s
    | SlashReroll messageId =>
        if negb (can_manage i) then
          replied "You need the Manage Messages permission to reroll giveaways." s
        else reroll_command w messageId s
    | SlashOther name =>
        if bool_decide (name ∈ ["stats"; "invite"; "support"; "help"])
        then replied name s else (Returned (), [], s)
    end.

(** A pending timer runs its callback, once. *)
Definition on_timer (w : world) (t : timer_id) (s : state) : result :=
  match timers s !! t with
  | None => (Returned (), [], s)
  | Some (_, EndGiveaway messageId channel) =>
      let '(r, out, s') :=
        endGiveaway w messageId channel
          {| activeGiveaways := activeGiveaways s;
             endedGiveaways := endedGiveaways s;
             timers := delete t (timers s);
             next_timer := next_timer s;
             issued := issued s |} in
      (match r with Returned _ => Returned () | Threw => Threw end, out, s')
  end.

Definition handle (w : world) (e : event) (s : state) : result :=
  match e with
  | MessageCreate m => on_message w m s
  | InteractionCreate i => on_interaction w i s
  | TimerFired t => on_timer w t s
  end.

Definition step (w : world) (e : event) (s : state) : state := (handle w e s).2.

(** Discord numbers every message it creates with an id of its own. *)
Definition fresh_ids (w : world) (s : state) : Prop :=
  ∀ channel m, send w channel = Returned m → m ∉ issued s.


(** The states left behind by the two handlers that change the maps. *)
Definition started (w : world) (channel : snowflake) (duration prize : string)
    (count : Z) (m : snowflake) (s : state) : state :=
  {| activeGiveaways :=
       <[m := {| channelId := channel; prize := prize;
                 winners := count; timeout := next_timer s |}]> (activeGiveaways s);
     endedGiveaways := endedGiveaways s;
     timers := <[next_timer s := (ms w duration, EndGiveaway m channel)]> (timers s);
     next_timer := S (next_timer s);
     issued := {[m]} ∪ issued s |}.

Definition removed (m : snowflake) (g : giveaway) (ended' : gmap snowflake ended)
    (s : state) : state :=
  {| activeGiveaways := delete m (activeGiveaways s);
     endedGiveaways := ended';
     timers := delete (timeout g) (timers s);
     next_timer := next_timer s;
     issued := issued s |}.

(** What one event can do to the state. *)
Inductive transition (w : world) (s : state) : state → Prop :=
| transition_none : transition w s s
| transition_start channel duration prize count m :
    send w channel = Returned m →
    transition w s (started w channel duration prize count m s)
| transition_end m g ended' :
    activeGiveaways s !! m = Some g →
    ended' = endedGiveaways s ∨ (∃ e, ended' = <[m := e]> (endedGiveaways s)) →
    transition w s (removed m g ended' s).

(** The timers and the two maps agree, and hold only ids Discord gave out. *)
Record consistent (s : state) : Prop := {
  entry_timer : ∀ m g, activeGiveaways s !! m = Some g →
    ∃ d, timers s !! timeout g = Some (d, EndGiveaway m (channelId g));
  timer_entry : ∀ t d m channel, timers s !! t = Some (d, EndGiveaway m channel) →
    ∃ g, activeGiveaways s !! m = Some g ∧ timeout g = t;
  active_not_ended : ∀ m, is_Some (activeGiveaways s !! m) → endedGiveaways s !! m = None;
  timers_below : ∀ t, is_Some (timers s !! t) → t < next_timer s;
  known_ids : ∀ m, is_Some (activeGiveaways s !! m) ∨ is_Some (endedGiveaways s !! m) →
    m ∈ issued s
}.

(** The states a run can reach from [s0]. *)
Inductive run_from (s0 : state) : state → Prop :=
| run_stop : run_from s0 s0
| run_step w e s : run_from s0 s → fresh_ids w s → run_from s0 (step w e s).

(** The states the bot can be in. *)
Definition reachable : state → Prop := run_from initial.

(** A giveaway that is over and left no snapshot. *)
Definition retired (m : snowflake) (s : state) : Prop :=
  m ∈ issued s ∧ activeGiveaways s !! m = None ∧ endedGiveaways s !! m = None.

(** The event is a [start] command that passes the handler's checks, for
    these channel, duration, prize and winner count. *)
Definition starts_giveaway (w : world) (e : event) (channel : snowflake)
    (duration prize : string) (count : Z) : Prop :=
  match e with
  | MessageCreate p =>
      author_bot p = false ∧ has_prefix p = true ∧ command p = "start" ∧
      member_can_manage p = true ∧ mentioned_channel p = Some channel ∧
      args p !! 1 = Some duration ∧ duration ≠ "" ∧
      prize = join " " (prize_words (args p)) ∧ prize ≠ "" ∧
      parseInt w (default "undefined" (last (args p))) = Some count ∧ (1 ≤ count)%Z
  | InteractionCreate i =>
      isCommand i = true ∧ can_manage i = true ∧
      slash_command i = SlashStart channel duration prize count
  | TimerFired _ => False
  end.

(** The event ends the giveaway of message [m]: its timer fires, or an
    [end] command that names it comes from a member who may manage
    messages. *)
Definition ends_giveaway (s : state) (m : snowflake) (e : event) : Prop :=
  match e with
  | MessageCreate p =>
      author_bot p = false ∧ has_prefix p = true ∧ command p = "end" ∧
      member_can_manage p = true ∧ args p !! 0 = Some m ∧ m ≠ ""
  | InteractionCreate i =>
      isCommand i = true ∧ can_manage i = true ∧ slash_command i = SlashEnd m
  | TimerFired t => timeout <$> activeGiveaways s !! m = Some t
  end.

(** How an event bears on [activeGiveaways], [s'] being the state it
    leaves: it starts one giveaway, ends one, or leaves the map alone. *)
Inductive event_kind (w : world) (s : state) (e : event) (s' : state) : Prop :=
| kind_start channel duration prize count :
    starts_giveaway w e channel duration prize count →
    (∀ c d p n, starts_giveaway w e c d p n →
                (c, d, p, n) = (channel, duration, prize, count)) →
    (∀ m, ¬ ends_giveaway s m e) →
    s' = (start_giveaway w channel duration prize count s).2 →
    event_kind w s e s'
| kind_end m :
    ends_giveaway s m e →
    (∀ m', ends_giveaway s m' e → m' = m) →
    (∀ c d p n, ¬ starts_giveaway w e c d p n) →
    activeGiveaways s' = delete m (activeGiveaways s) →
    event_kind w s e s'
| kind_other :
    (∀ c d p n, ¬ starts_giveaway w e c d p n) →
    (∀ m, ¬ ends_giveaway s m e) →
    activeGiveaways s' = activeGiveaways s →
    event_kind w s e s'.


(** *** A small run, for the examples below *)

Definition helper : user := {| id := "100"; bot := true |}.
Definition alice : user := {| id := "101"; bot := false |}.
Definition bob : user := {| id := "102"; bot := false |}.

(** Discord while a giveaway is started in channel c1: the new message
    gets the id 900. *)
Definition world_at_start : world :=
  {| fetch_message := λ _ _, None;
     fetch_channel := λ _, true;
     send := λ _, Returned "900";
     react := true;
     random := λ _, Random 1 1;
     now := 0;
     parseInt := λ _, None;
     ms := λ _, Some 3600000%Z |}.

(** Discord later on: message 900 of channel c1 carries the reaction of
    the bot itself and of two members; the next message gets the id 901. *)
Definition world_at_end : world :=
  {| fetch_message := λ channel m,
       if String.eqb channel "c1" && String.eqb m "900"
       then Some {| party_users := Some (Returned [helper; alice; bob]) |}
       else None;
     fetch_channel := λ _, true;
     send := λ _, Returned "901";
     react := true;
     random := λ _, Random 1 1;
     now := 3600000;
     parseInt := λ _, None;
     ms := λ _, None |}.

Definition slash_start (count : Z) : event :=
  InteractionCreate {| isCommand := true; can_manage := true;
                       interaction_channel := "c0";
                       slash_command := SlashStart "c1" "1h" "Book" count |}.

Definition slash_end (allowed : bool) (messageId channel : snowflake) : event :=
  InteractionCreate {| isCommand := true; can_manage := allowed;
                       interaction_channel := channel;
                       slash_command := SlashEnd messageId |}.

(** One giveaway for two winners, started in channel c1. *)
Definition started_demo : state := step world_at_start (slash_start 2) initial.

(** Closes a case whose hypotheses contradict each other. *)
Ltac refute :=
  repeat intro; simpl in *; destruct_and?; simplify_eq/=;
  first [ done | congruence | lia ].

(** A prefix start as a member would type it: channel, duration, a prize
    of two words, three winners. *)
Definition prefix_start_demo : prefix_message :=
  {| author_bot := false; has_prefix := true; command := "start";
     args := ["<#c1>"; "1h"; "Gift"; "card"; "3"];
     member_can_manage := true; mentioned_channel := Some "c1";
     message_channel := "c0" |}.

(** Discord at that moment, with a [parseInt] that reads the text 3. *)
Definition world_at_prefix_start : world :=
  {| fetch_message := λ _ _, None;
     fetch_channel := λ _, true;
     send := λ _, Returned "900";
     react := true;
     random := λ _, Random 1 1;
     now := 0;
     parseInt := λ text, if String.eqb text "3" then Some 3%Z else None;
     ms := λ _, Some 3600000%Z |}.

(** The demo giveaway, ended in its channel. *)
Definition ended_demo : state := step world_at_end (slash_end true "900" "c1") started_demo.

End Giveaway.

(** ** The music bot: control buttons, autoplay and the inactivity timer *)

Module Music.

Abbreviation snowflake := string (only parsing).

(** A Kazagumo track, as far as the handlers read it. *)
Record track := {
  uri : string;
  title : string;
  (** [track.requester.id] *)
  requester : snowflake
}.

#[global] Instance track_eq_dec : EqDecision track.
Proof. solve_decision. Defined.

(** The library's player of one guild.  [tracks] are the queued tracks
    ([queue.tracks], counted by [queue.length] and [queue.isEmpty]);
    [current] is the playing slot. *)
Record player := {
  guildId : snowflake;
  voiceId : option snowflake;
  textId : snowflake;
  current : option track;
  tracks : list track;
  (** [queue.previous]: missing, or the list of past tracks *)
  previous : option (list track);
  playing : bool;
  paused : bool;
  destroyed : bool;
  (** [player.node && player.node.send] *)
  node_send : bool
}.

(** What a timer runs when it fires. *)
Inductive task :=
| InactivityCheck (guild channel : snowflake)
| Unpause (guild : snowflake).

#[global] Instance task_eq_dec : EqDecision task.
Proof. solve_decision. Defined.

Record timer := { due : Z; delay : Z; run : task }.

(** The calls a handler makes into the libraries, in order. *)
Inductive call :=
| PlayerPause (on : bool)
| PlayerSkip
| PlayerSeek (position : Z)
| PlayerPlay
| PlayerDestroy
| QueueShuffle
| QueueClear
| QueueAdd (added : list track)
| QueueInsert (t : track) (position : nat)
| Search (query : string) (by_user : option snowflake)
| NodeStop
| VoiceDisconnect
| ChannelSend (channel : snowflake) (title : string)
| SetTimer (ms : Z) (what : task)
| ClearTimer (handle : timer_id).

#[global] Instance call_eq_dec : EqDecision call.
Proof. solve_decision. Defined.

Record state := {
  (** [client.twentyFourSeven]: guild to voice channel *)
  twentyFourSeven : gmap snowflake snowflake;
  (** [client.inactivityTimeouts]: guild to timer handle *)
  inactivityTimeouts : gmap snowflake timer_id;
  (** [client.autoplay]; nothing in [index.js] creates it *)
  autoplay : option (gset snowflake);
  (** [client.kazagumo.players] *)
  players : gmap snowflake player;
  (** the pending timers of the event loop *)
  timers : gmap timer_id timer;
  next_timer : timer_id;
  clock : Z
}.

(** What the outside answers during one handler run. *)
Record world := {
  (** the successive values of [Math.random()] *)
  random : nat → random_value;
  (** the order [player.queue.shuffle()] leaves the queue in *)
  queue_shuffle : list track → list track;
  (** the order [tracks.sort(() => Math.random() - 0.5)] leaves *)
  sort_random : list track → list track;
  (** [client.kazagumo.search(query, ...)]: it throws, has no result
      object, or lists tracks *)
  search : string → completion (option (list track));
  (** [player.play()] resolves *)
  play_ok : bool;
  (** [client.channels.cache.get(player.textId)] finds the channel *)
  text_channel : bool;
  (** the bot's member is in a voice channel of a cached guild *)
  bot_in_voice : bool
}.

(** *** Library operations on a player: their effect on the fields the
    handlers read *)

Definition with_queue (p : player) (now_playing : option track) (queued : list track)
  : player :=
  {| guildId := guildId p; voiceId := voiceId p; textId := textId p;
     current := now_playing; tracks := queued; previous := previous p;
     playing := playing p; paused := paused p; destroyed := destroyed p;
     node_send := node_send p |}.

(** [player.pause(on)]. *)
Definition pause (on : bool) (p : player) : player :=
  {| guildId := guildId p; voiceId := voiceId p; textId := textId p;
     current := current p; tracks := tracks p; previous := previous p;
     playing := negb on; paused := on; destroyed := destroyed p;
     node_send := node_send p |}.

(** [player.skip()], once the node has ended the track: the next queued
    track takes the playing slot. *)
Definition skipped (p : player) : player :=
  with_queue p (head (tracks p)) (tail (tracks p)).

(** *** The shuffle button *)

(** [[a[i], a[j]] = [a[j], a[i]]] within the array. *)
Definition swap (l : list track) (i j : nat) : list track :=
  match l !! i, l !! j with
  | Some x, Some y => <[j := x]> (<[i := y]> l)
  | _, _ => l
  end.

(** The loop of lines 1038-1041, [i] running down from [length - 1] to 1;
    [k] counts the calls of [Math.random]. *)
Fixpoint fisher_yates (rnd : nat → random_value) (k i : nat) (l : list track)
  : list track :=
  match i with
  | O => l
  | S i' => fisher_yates rnd (S k) i' (swap l i (random_below (rnd k) (i + 1)))
  end.

(** Lines 1030-1052 on the player, with the calls made. *)
Definition shuffle_all (w : world) (currentSong : track) (p : player)
  : player * list call :=
  let queued := queue_shuffle w (tracks p) in
  let tracksToShuffle :=
    fisher_yates (random w) 0 (length (currentSong :: queued) - 1)
                 (currentSong :: queued) in
  let rest := drop 1 tracksToShuffle in
  match tracksToShuffle !! 0 with
  | Some first =>
      if bool_decide (uri first ≠ uri currentSong)
      then (with_queue p (current p) (first :: rest),
            [QueueShuffle; QueueClear; QueueAdd rest; QueueInsert first 0; PlayerSkip])
      else (with_queue p (current p) rest, [QueueShuffle; QueueClear; QueueAdd rest])
  | None => (with_queue p (current p) rest, [QueueShuffle; QueueClear; QueueAdd rest])
  end.

(** The playing slot and the queue once the shuffle, and the skip it may
    have asked for, are through. *)
Definition after_shuffle (w : world) (currentSong : track) (p : player) : list track :=
  let '(p', calls) := shuffle_all w currentSong p in
  let settled := if bool_decide (PlayerSkip ∈ calls) then skipped p' else p' in
  option_list (current settled) ++ tracks settled.

(** *** The button handler *)

(** A button interaction. *)
Record button := {
  customId : string;
  (** [interaction.guild.id] *)
  guild : snowflake;
  (** [interaction.user.id] *)
  user : snowflake;
  (** [interaction.member.voice.channel], by its id *)
  member_voice : option snowflake
}.

(** What a handler run comes to: the reply, the library calls, the state. *)
Record outcome := {
  reply : option string;
  calls : list call;
  after : state
}.

Definition answer (text : string) (s : state) : outcome :=
  {| reply := Some text; calls := []; after := s |}.

Definition set_player (g : snowflake) (p : player) (s : state) : state :=
  {| twentyFourSeven := twentyFourSeven s; inactivityTimeouts := inactivityTimeouts s;
     autoplay := autoplay s; players := <[g := p]> (players s);
     timers := timers s; next_timer := next_timer s; clock := clock s |}.

(** [player.destroy()]: the library drops the player of the guild. *)
Definition drop_player (g : snowflake) (s : state) : state :=
  {| twentyFourSeven := twentyFourSeven s; inactivityTimeouts := inactivityTimeouts s;
     autoplay := autoplay s; players := delete g (players s);
     timers := timers s; next_timer := next_timer s; clock := clock s |}.

Definition set_twentyFourSeven (m : gmap snowflake snowflake) (s : state) : state :=
  {| twentyFourSeven := m; inactivityTimeouts := inactivityTimeouts s;
     autoplay := autoplay s; players := players s;
     timers := timers s; next_timer := next_timer s; clock := clock s |}.

(** [setTimeout(task, ms)]: the new handle and the state. *)
Definition set_timeout (ms : Z) (what : task) (s : state) : timer_id * state :=
  (next_timer s,
   {| twentyFourSeven := twentyFourSeven s; inactivityTimeouts := inactivityTimeouts s;
      autoplay := autoplay s; players := players s;
      timers := <[next_timer s := {| due := clock s + ms; delay := ms; run := what |}]>
                  (timers s);
      next_timer := S (next_timer s); clock := clock s |}).

Definition refusal : string :=
  "You cannot use this button! Only the person who requested this song can control it.".

Definition stop_refusal : string :=
  "You cannot use this button! Only the person who requested this song can stop it.".

(** [track && track.requester.id !== interaction.user.id]. *)
Definition other_requester (t : option track) (b : button) : bool :=
  match t with
  | Some t => negb (String.eqb (requester t) (user b))
  | None => false
  end.

(** The [switch] of lines 899-1161, for a player [p] of the guild. *)
Definition control (w : world) (b : button) (p : player) (s : state) : outcome :=
  let g := guild b in
  if String.eqb (customId b) "pause" then
    if other_requester (current p) b then answer refusal s
    else {| reply := Some "Paused the music! Click Resume to continue playback.";
            calls := [PlayerPause true];
            after := set_player g (pause true p) s |}
  else if String.eqb (customId b) "resume" then
    if other_requester (current p) b then answer refusal s
    else {| reply := Some "Resumed the music! Click Pause to pause playback.";
            calls := [PlayerPause false];
            after := set_player g (pause false p) s |}
  else if String.eqb (customId b) "pauseresume" then
    answer "Pause/Resume button logic has been updated. Please use the new controls." s
  else if String.eqb (customId b) "skip" then
    if other_requester (current p) b then answer refusal s
    else {| reply := Some "Skipped to the next track!";
            calls := [PlayerSkip]; after := s |}
  else if String.eqb (customId b) "replay" then
    match current p with
    | None => answer "No track is currently playing!" s
    | Some currentTrack =>
        if other_requester (Some currentTrack) b then answer refusal s
        else
          let '(_, s') := set_timeout 500 (Unpause g) (set_player g (pause true p) s) in
          {| reply := Some "Stopped and restarted the current track!";
             calls := [PlayerSeek 0; PlayerPause true; SetTimer 500 (Unpause g)];
             after := s' |}
    end
  else if String.eqb (customId b) "shuffle" then
    match current p with
    | None => answer "No track is currently playing!" s
    | Some currentSong =>
        if other_requester (Some currentSong) b then answer refusal s
        else if bool_decide (length (tracks p) = 0) then
          answer "No additional tracks in queue. Add more songs to create a shuffle mix!" s
        else
          let '(p', made) := shuffle_all w currentSong p in
          {| reply := Some "Shuffled all tracks including the current one!";
             calls := made; after := set_player g p' s |}
    end
  else if String.eqb (customId b) "stop" then
    match current p with
    | None => answer "No track is currently playing!" s
    | Some trackToStop =>
        if other_requester (Some trackToStop) b then answer stop_refusal s
        else
          let announced :=
            if text_channel w then [ChannelSend (textId p) "Queue Ended"] else [] in
          let torn_down :=
            if destroyed p then []
            else
              [QueueClear] ++
              (if node_send p then [NodeStop] else []) ++
              (if bool_decide (is_Some (voiceId p)) && bot_in_voice w
               then [VoiceDisconnect] else []) in
          {| reply :=
               Some "Music playback has been stopped and the queue has been cleared.";
             calls := announced ++ torn_down;
             after := if destroyed p then s
                      else set_player g (with_queue p (current p) []) s |}
    end
  else {| reply := None; calls := []; after := s |}.

(** Lines 808-816. *)
Definition helpText : string :=
  "**Bot Help**
Here are the main commands you can use:

• `/play` - Play a song by name or URL
• `/queue` - View the current queue
• `/skip` - Skip the current track
• `/stop` - Stop playback and clear queue
• `/247` - Toggle 24/7 mode
• `/help` - Show detailed help".

(** The button part of [client.on('interactionCreate', ...)], lines
    805-1162. *)
Definition on_button (w : world) (b : button) (s : state) : outcome :=
  if String.eqb (customId b) "help" then answer helpText s
  else if String.eqb (customId b) "play" then
    answer "Please use the `/play` command followed by a song name or URL to add a track to the queue." s
  else if String.eqb (customId b) "247toggle" then
    match member_voice b with
    | None => answer "You must be in a voice channel to toggle 24/7 mode!" s
    | Some channel =>
        if bool_decide (is_Some (twentyFourSeven s !! guild b)) then
          answer "24/7 mode has been disabled. I will disconnect after inactivity."
                 (set_twentyFourSeven (delete (guild b) (twentyFourSeven s)) s)
        else
          answer "24/7 mode has been enabled. I will stay in the voice channel indefinitely."
                 (set_twentyFourSeven (<[guild b := channel]> (twentyFourSeven s)) s)
    end
  else if String.eqb (customId b) "leave" then
    match players s !! guild b with
    | None => answer "I am not in a voice channel!" s
    | Some _ =>
        {| reply := Some "Left the voice channel."; calls := [PlayerDestroy];
           after := drop_player (guild b) s |}
    end
  else if bool_decide (customId b ∈ ["pauseresume"; "skip"; "replay"; "shuffle"; "stop"]) then
    match players s !! guild b with
    | None => answer "There is no active player in this server!" s
    | Some p =>
        if bool_decide (member_voice b = None ∨ member_voice b ≠ voiceId p)
           && negb (String.eqb (customId b) "stop")
        then answer "You must be in the same voice channel as the bot to use the music controls!" s
        else control w b p s
    end
  else {| reply := None; calls := []; after := s |}.

(** *** Queue end: autoplay and the inactivity timer *)

(** Line 523. *)
Definition genres : list string :=
  ["pop"; "rock"; "hip hop"; "dance"; "electronic"; "chill"; "top hits";
   "popular"; "trending"; "new music"; "music mix"].

(** [player.queue.add(tracks)]. *)
Definition queue_add (added : list track) (p : player) : player :=
  with_queue p (current p) (tracks p ++ added).

(** [lastTrack ? lastTrack.requester : null], lines 527-530. *)
Definition last_requester (p : player) : option snowflake :=
  requester <$> (previous p ≫= last).

(** [client.autoplay && client.autoplay.has(guildId)]. *)
Definition autoplay_has (g : snowflake) (s : state) : bool :=
  match autoplay s with
  | Some enabled => bool_decide (g ∈ enabled)
  | None => false
  end.

(** How the autoplay block of lines 519-605 ends. *)
Inductive autoplay_end :=
| AutoplayOff
| AutoplayNothing
| AutoplayContinues.

(** The autoplay block: how it ends, the calls it made, the player. *)
Definition autoplay_block (w : world) (p : player) (s : state)
  : autoplay_end * list call * player :=
  if autoplay_has (guildId p) s && bool_decide (is_Some (previous p))
  then
    let randomGenre :=
      default "undefined" (genres !! random_below (random w 0) (length genres)) in
    let asked := Search randomGenre (last_requester p) in
    match search w randomGenre with
    | Returned (Some (t :: more)) =>
        let shuffledTracks := sort_random w (t :: more) in
        let tracksToAdd := take 5 shuffledTracks in
        let p' := queue_add tracksToAdd p in
        if negb (playing p') && negb (paused p') then
          if play_ok w
          then (AutoplayContinues, [asked; QueueAdd tracksToAdd; PlayerPlay], p')
          else (AutoplayNothing, [asked; QueueAdd tracksToAdd; PlayerPlay], p')
        else (AutoplayContinues, [asked; QueueAdd tracksToAdd], p')
    | _ => (AutoplayNothing, [asked], p)
    end
  else (AutoplayOff, [], p).

Definition set_inactivityTimeouts (m : gmap snowflake timer_id) (s : state) : state :=
  {| twentyFourSeven := twentyFourSeven s; inactivityTimeouts := m;
     autoplay := autoplay s; players := players s;
     timers := timers s; next_timer := next_timer s; clock := clock s |}.

Definition clear_timeout (handle : timer_id) (s : state) : state :=
  {| twentyFourSeven := twentyFourSeven s; inactivityTimeouts := inactivityTimeouts s;
     autoplay := autoplay s; players := players s;
     timers := delete handle (timers s); next_timer := next_timer s; clock := clock s |}.

(** [client.kazagumo.on('playerEmpty', ...)], lines 456-639, for the
    player [p] the library passes in. *)
Definition on_playerEmpty (w : world) (p : player) (s : state) : outcome :=
  let g := guildId p in
  let notice := if text_channel w then [ChannelSend (textId p) "Queue Ended"] else [] in
  let '(ending, asked, p') := autoplay_block w p s in
  let s1 := set_player g p' s in
  match ending with
  | AutoplayContinues =>
      {| reply := None;
         calls := notice ++ asked ++
                  (if text_channel w then [ChannelSend (textId p) "Autoplay"] else []);
         after := s1 |}
  | _ =>
      if bool_decide (is_Some (twentyFourSeven s1 !! g)) then
        {| reply := None; calls := notice ++ asked; after := s1 |}
      else if text_channel w then
        let '(inactivityTimeout, s2) :=
          set_timeout 180000 (InactivityCheck g (textId p)) s1 in
        {| reply := None;
           calls := notice ++ asked ++ [SetTimer 180000 (InactivityCheck g (textId p))];
           after := set_inactivityTimeouts
                      (<[g := inactivityTimeout]> (inactivityTimeouts s2)) s2 |}
      else {| reply := None; calls := notice ++ asked; after := s1 |}
  end.

(** The inactivity part of [client.kazagumo.on('playerStart', ...)], lines
    207-211. *)
Definition on_playerStart (g : snowflake) (s : state) : outcome :=
  match inactivityTimeouts s !! g with
  | Some handle =>
      {| reply := None; calls := [ClearTimer handle];
         after := set_inactivityTimeouts (delete g (inactivityTimeouts s))
                    (clear_timeout handle s) |}
  | None => {| reply := None; calls := []; after := s |}
  end.

(** The callback of the inactivity timer, lines 614-633; its condition is
    [currentPlayer && (!currentPlayer.queue.current ||
    currentPlayer.queue.isEmpty) && !currentPlayer.playing &&
    !client.twentyFourSeven.has(guildId)]. *)
Definition inactivity_check (g channel : snowflake) (s : state) : outcome :=
  match players s !! g with
  | Some currentPlayer =>
      if (negb (bool_decide (is_Some (current currentPlayer)))
          || bool_decide (length (tracks currentPlayer) = 0))
         && negb (playing currentPlayer)
         && negb (bool_decide (is_Some (twentyFourSeven s !! g)))
      then {| reply := None; calls := [PlayerDestroy; ChannelSend channel "Channel Left"];
              after := drop_player g s |}
      else {| reply := None; calls := []; after := s |}
  | None => {| reply := None; calls := []; after := s |}
  end.

(** A pending timer that is due runs its callback, once. *)
Definition on_timer (handle : timer_id) (s : state) : outcome :=
  match timers s !! handle with
  | Some t =>
      if bool_decide (due t ≤ clock s)%Z then
        let s1 := clear_timeout handle s in
        match run t with
        | InactivityCheck g channel => inactivity_check g channel s1
        | Unpause g =>
            match players s1 !! g with
            | Some p => {| reply := None; calls := [PlayerPause false];
                           after := set_player g (pause false p) s1 |}
            | None => {| reply := None; calls := []; after := s1 |}
            end
        end
      else {| reply := None; calls := []; after := s |}
  | None => {| reply := None; calls := []; after := s |}
  end.

Definition advance (ms : Z) (s : state) : state :=
  {| twentyFourSeven := twentyFourSeven s; inactivityTimeouts := inactivityTimeouts s;
     autoplay := autoplay s; players := players s;
     timers := timers s; next_timer := next_timer s;
     clock := clock s + Z.max 0 ms |}.

(** What can happen to the bot: the library's events for a guild's
    player, a button, a timer coming due, time passing, and the library
    changing a player on its own (a track starts, a user pauses, ...).
    The library raises [playerEmpty] for a player it holds. *)
Inductive event :=
| PlayerEmpty (g : snowflake)
| PlayerStart (g : snowflake)
| Button (b : button)
| TimerFired (handle : timer_id)
| Elapsed (ms : Z)
| LibraryUpdate (p : player).

Definition handle (w : world) (e : event) (s : state) : outcome :=
  match e with
  | PlayerEmpty g =>
      match players s !! g with
      | Some p => on_playerEmpty w p s
      | None => {| reply := None; calls := []; after := s |}
      end
  | PlayerStart g => on_playerStart g s
  | Button b => on_button w b s
  | TimerFired t => on_timer t s
  | Elapsed ms => {| reply := None; calls := []; after := advance ms s |}
  | LibraryUpdate p => {| reply := None; calls := []; after := set_player (guildId p) p s |}
  end.

Definition step (w : world) (s : state) (e : event) : state := after (handle w e s).

(** A run: each event with what the outside answered during it. *)
Definition play (s : state) (events : list (world * event)) : state :=
  foldl (λ s we, step we.1 s we.2) s events.

Definition initial : state :=
  {| twentyFourSeven := ∅; inactivityTimeouts := ∅; autoplay := None;
     players := ∅; timers := ∅; next_timer := 0; clock := 0 |}.

Definition checks_guild (g : snowflake) (t : timer) : bool :=
  match run t with
  | InactivityCheck g' _ => bool_decide (g' = g)
  | Unpause _ => false
  end.

(** The pending inactivity timers of a guild. *)
Definition pending_checks (g : snowflake) (s : state) : gmap timer_id timer :=
  filter (λ kt, checks_guild g kt.2 = true) (timers s).

(** The player is what the timer's condition calls idle. *)
Definition looks_idle (g : snowflake) (s : state) : Prop :=
  ∃ p, players s !! g = Some p ∧ (current p = None ∨ tracks p = []) ∧
       playing p = false ∧ twentyFourSeven s !! g = None.

(** The member is in the voice channel the player is in. *)
Definition in_voice (b : button) (p : player) : Prop :=
  ∃ channel, member_voice b = Some channel ∧ voiceId p = Some channel.

(** *** A small session, for the examples below *)

Definition song : track := {| uri := "a"; title := "A"; requester := "1" |}.

(** The same song, asked for by somebody else. *)
Definition twin : track := {| uri := "a"; title := "A"; requester := "2" |}.

Definition other : track := {| uri := "b"; title := "B"; requester := "2" |}.

Definition player_of (now_playing : option track) (queued : list track) (on : bool)
  : player :=
  {| guildId := "g1"; voiceId := Some "v1"; textId := "c1";
     current := now_playing; tracks := queued; previous := Some [];
     playing := on; paused := false; destroyed := false; node_send := true |}.

(** Every [Math.random()] is 0; the library's own shuffles keep the order;
    a search finds nothing. *)
Definition calm : world :=
  {| random := λ _, Random 0 0; queue_shuffle := λ l, l; sort_random := λ l, l;
     search := λ _, Returned None; play_ok := true;
     text_channel := true; bot_in_voice := true |}.

Definition press (name : string) (who : snowflake) : button :=
  {| customId := name; guild := "g1"; user := who; member_voice := Some "v1" |}.

Definition session (p : player) : state := set_player "g1" p initial.

(** The same, with autoplay switched on for the guild. *)
Definition autoplaying (p : player) : state :=
  {| twentyFourSeven := ∅; inactivityTimeouts := ∅; autoplay := Some {["g1"]};
     players := {["g1" := p]}; timers := ∅; next_timer := 0; clock := 0 |}.

(** A search that finds seven tracks. *)
Definition seven : list track :=
  (λ n, {| uri := pretty n; title := "found"; requester := "0" |}) <$> seq 0 7.

Definition finding : world :=
  {| random := λ _, Random 1 1; queue_shuffle := λ l, l; sort_random := reverse;
     search := λ _, Returned (Some seven); play_ok := true;
     text_channel := true; bot_in_voice := true |}.

(** The run that leaves a timer behind: the queue of guild g1 runs empty,
    runs empty again a minute later (a track that failed to load ends
    without having started), then a track starts, the user pauses it, and
    the first timer comes due. *)
Definition twice_empty : list (world * event) :=
  [(calm, LibraryUpdate (player_of None [] false));
   (calm, PlayerEmpty "g1");
   (calm, Elapsed 60000);
   (calm, PlayerEmpty "g1")].

Definition then_started : list (world * event) :=
  twice_empty ++
  [(calm, PlayerStart "g1");
   (calm, LibraryUpdate (player_of (Some song) [] false));
   (calm, Elapsed 120000)].

(** Membership in a list that is written out. *)
Ltac in_list := simpl; repeat first [ apply list_elem_of_here | apply list_elem_of_further ].

Ltac not_in_list :=
  let Hin := fresh "Hin" in
  simpl; intros Hin;
  repeat (apply elem_of_cons in Hin as [Hin|Hin]; [discriminate Hin|]);
  by apply elem_of_nil in Hin.

(** *** What a button may do to the state *)

(** The ways a button pressed in guild [g] leaves the state: untouched,
    with the guild's player changed or dropped, with the guild's 24/7 entry
    changed, or with the player changed and the replay timer set. *)
Inductive button_effect (g : snowflake) (s : state) : state → Prop :=
| effect_none : button_effect g s s
| effect_player p : button_effect g s (set_player g p s)
| effect_destroy : button_effect g s (drop_player g s)
| effect_on channel :
    button_effect g s (set_twentyFourSeven (<[g := channel]> (twentyFourSeven s)) s)
| effect_off : button_effect g s (set_twentyFourSeven (delete g (twentyFourSeven s)) s)
| effect_replay p : button_effect g s (set_timeout 500 (Unpause g) (set_player g p s)).2.

(** *** The timers of a run *)

(** What holds of the timers in every state of a run: handles are below
    the next one to give out, a timer is due no later than its delay from
    now, an inactivity check waits 180000 ms and a replay 500 ms, and the
    handle recorded for a guild is below the next one and, while pending,
    is an inactivity check of that guild. *)
Record timers_wf (s : state) : Prop := {
  handles_below : ∀ h t, timers s !! h = Some t → h < next_timer s;
  due_within_delay : ∀ h t, timers s !! h = Some t → (due t ≤ clock s + delay t)%Z;
  known_delays : ∀ h t, timers s !! h = Some t →
    match run t with
    | InactivityCheck _ _ => delay t = 180000%Z
    | Unpause _ => delay t = 500%Z
    end;
  recorded_below : ∀ g h, inactivityTimeouts s !! g = Some h → h < next_timer s;
  recorded_checks : ∀ g h t,
    inactivityTimeouts s !! g = Some h → timers s !! h = Some t →
    ∃ channel, run t = InactivityCheck g channel
}.

(** The session with a song playing and another queued. *)
Definition listening : state := session (player_of (Some song) [other] true).

(** *** The [/resume] command ([commands/resume.js]) *)

Record resume := {
  (** [interaction.guildId] *)
  resume_guild : snowflake;
  (** [interaction.member.voice.channel], by its id *)
  resume_voice : option snowflake
}.

(** [execute(interaction)], with [player.pause(false)] resolving. *)
Definition resume_command (i : resume) (s : state) : outcome :=
  match resume_voice i with
  | None => answer "You need to be in a voice channel to use this command!" s
  | Some voiceChannel =>
      match players s !! resume_guild i with
      | None => answer "There is no active player in this server!" s
      | Some p =>
          if bool_decide (voiceId p ≠ Some voiceChannel) then
            answer "You need to be in the same voice channel as me!" s
          else if negb (paused p) then answer "The player is not paused!" s
          else {| reply := Some "Playback Resumed"; calls := [PlayerPause false];
                  after := set_player (resume_guild i) (pause false p) s |}
      end
  end.

(** The session with the song paused. *)
Definition halted : state :=
  session (pause true (player_of (Some song) [other] true)).

End Music.

(** ** Player exceptions and errors (music bot) *)

Module PlayerErrors.

Import Stdlib.Strings.Ascii.
Import Music.

(** [text.replace(/\*\*/g, '')]: the matches of two stars, taken from the
    left without overlap, are removed. *)
Fixpoint remove_bold (text : string) : string :=
  match text with
  | String "*"%char (String "*"%char rest) => remove_bold rest
  | String c rest => String c (remove_bold rest)
  | EmptyString => EmptyString
  end.

(** The [error] argument of both handlers: an object with a [message] that
    may be missing. *)
Record player_error := { error_message : option string }.

(** An embed sent to a text channel. *)
Record embed := Embed {
  embed_channel : snowflake;
  embed_title : string;
  embed_description : string
}.

(** What [player.skip().catch(...)] comes to: the promise resolves, it
    rejects, or the call throws. *)
Inductive skip_end := SkipResolves | SkipRejects | SkipThrows.

(** What the library answers during a recovery. *)
Record library := {
  skip_ends : skip_end;
  (** [player.destroy()] resolves *)
  destroy_ok : bool
}.

(** Lines 651-669: the text to show and [needsRecovery]. *)
Definition exception_report (e : player_error) : string * bool :=
  let m := default "" (error_message e) in
  if truthy (error_message e) then
    if includes m "destroyed" || includes m "not found" then
      ("**Connection Error**: Music player was disconnected unexpectedly. Use a command to reconnect.",
       false)
    else if includes m "Track stuck" || includes m "load failed" then
      ("**Playback Error**: The current track failed to load or got stuck. Skipping to the next song...",
       true)
    else if includes m "Connection" || includes m "WebSocket" then
      ("**Connection Error**: Lost connection to the music server. Attempting to reconnect...",
       true)
    else ("**An error occurred while playing**: " +:+ or_else (error_message e) "Unknown error",
          false)
  else ("**An error occurred while playing**: " +:+ or_else (error_message e) "Unknown error",
        false).

Record handled := {
  shown : option embed;
  recovery : list call;
  left : state
}.

(** [player.destroy().catch(() => {})]. *)
Definition destroy_player (l : library) (p : player) (s : state) : state :=
  if destroy_ok l then drop_player (guildId p) s else s.

(** [client.kazagumo.on('playerException', ...)], lines 641-697. *)
Definition on_playerException (w : world) (l : library) (p : player) (e : player_error)
    (s : state) : handled :=
  let '(errorMessage, needsRecovery) := exception_report e in
  let sent :=
    if text_channel w
    then Some (Embed (textId p) "Playback Error" (remove_bold errorMessage))
    else None in
  if needsRecovery then
    if bool_decide (0 < length (tracks p)) then
      match skip_ends l with
      | SkipRejects =>
          {| shown := sent; recovery := [PlayerSkip; PlayerDestroy];
             left := destroy_player l p s |}
      | _ => {| shown := sent; recovery := [PlayerSkip]; left := s |}
      end
    else {| shown := sent; recovery := [PlayerDestroy]; left := destroy_player l p s |}
  else {| shown := sent; recovery := []; left := s |}.

(** Lines 710-720. *)
Definition error_report (e : player_error) : string :=
  let m := default "" (error_message e) in
  if truthy (error_message e) then
    if includes m "No available nodes" then
      "**Connection Error**: Cannot connect to the music server. Please try again later."
    else if includes m "Failed to decode" then
      "**Playback Error**: This track cannot be played due to format issues. Please try another song."
    else if includes m "Track information not available" then
      "**Track Error**: Could not retrieve track information. The source may be unavailable."
    else "**Player Error**: " +:+ or_else (error_message e) "Unknown error"
  else "**Player Error**: " +:+ or_else (error_message e) "Unknown error".

(** The condition of lines 734-737. *)
Definition wants_reconnect (e : player_error) : bool :=
  let m := default "" (error_message e) in
  truthy (error_message e) &&
  (includes m "No available nodes" || includes m "Connection" || includes m "WebSocket").

(** The callbacks of the two nested timers, with what they captured: the
    player and whether its text channel was found; then the three ids. *)
Inductive error_task :=
| Reconnect (p : player) (channel : bool)
| Recreate (guildId : snowflake) (voiceId : option snowflake) (textId : snowflake)
           (channel : bool).

Inductive action :=
| Send (e : embed)
| Destroy (guildId : snowflake)
| CreatePlayer (guildId voiceId textId : snowflake)
| Later (ms : Z) (t : error_task).

(** [client.kazagumo.on('playerError', ...)], lines 699-782. *)
Definition on_playerError (w : world) (p : player) (e : player_error) : list action :=
  (if text_channel w
   then [Send (Embed (textId p) "Player Error" (remove_bold (error_report e)))]
   else []) ++
  (if wants_reconnect e then [Later 5000 (Reconnect p (text_channel w))] else []).

(** A timer of the handler fires.  [nodes] tells whether a node is
    connected then, [create] whether [createPlayer] returns. *)
Definition fire (nodes create : bool) (t : error_task) : list action :=
  match t with
  | Reconnect p channel =>
      if nodes
      then [Destroy (guildId p);
            Later 2000 (Recreate (guildId p) (voiceId p) (textId p) channel)]
      else []
  | Recreate g v t channel =>
      if truthy v && truthy (Some g) then
        CreatePlayer g (default "" v) t ::
        (if create && channel
         then [Send (Embed t "Reconnected" "Successfully reconnected to the voice channel.")]
         else [])
      else []
  end.

(** What is done and when, counted in ms from [now], the timers through. *)
Fixpoint timeline (fuel : nat) (nodes create : bool) (now : Z) (acts : list action)
  : list (Z * action) :=
  match fuel with
  | O => []
  | S fuel =>
      acts ≫= λ a,
        match a with
        | Later ms t => timeline fuel nodes create (now + ms) (fire nodes create t)
        | _ => [(now, a)]
        end
  end.

(** A connection error on the player of the session. *)
Definition lost : player_error := {| error_message := Some "WebSocket closed" |}.

Definition steady : library := {| skip_ends := SkipResolves; destroy_ok := true |}.

End PlayerErrors.

(** * Properties *)

(** ** Facts about the JavaScript values *)

Module JsFacts.

Import Js.

Lemma prefix_app (p s : string) :
  String.prefix p s = true ↔ ∃ post, s = p +:+ post.
Proof.
  revert s. induction p as [|c p IH]; intros s; simpl.
  - split; [intros _; by exists s | by destruct s].
  - destruct s as [|d s]; simpl; [split; [done | by intros [? ?]]|].
    destruct (Ascii.ascii_dec c d) as [->|Hne].
    + rewrite IH. split; intros [post Heq]; exists post.
      * by rewrite Heq.
      * by injection Heq.
    + split; [done|]. intros [post Heq]. by injection Heq.
Qed.

(** [includes] decides "occurs as a substring". *)
Lemma includes_spec (hay needle : string) :
  includes hay needle = true ↔ ∃ pre post, hay = pre +:+ needle +:+ post.
Proof.
  induction hay as [|c hay IH]; cbn [includes].
  - rewrite orb_false_r, prefix_app. split.
    + intros [post ->]. by exists "", post.
    + intros (pre & post & Heq). destruct pre; [by exists post|done].
  - rewrite orb_true_iff, prefix_app, IH. split.
    + intros [[post ->]|(pre & post & ->)].
      * by exists "", post.
      * by exists (String c pre), post.
    + intros (pre & post & Heq). destruct pre as [|d pre].
      * left. by exists post.
      * right. exists pre, post. by injection Heq.
Qed.

Lemma random_below_lt (r : random_value) (n : nat) :
  0 < n → random_below r n < n.
Proof.
  intros Hn. unfold random_below.
  apply Nat.Div0.div_lt_upper_bound. nia.
Qed.

End JsFacts.

Import JsFacts.

(** ** The reconnect delay *)

Module ReconnectFacts.

Import Reconnect.

(** C5.  A socket error with a message schedules exactly one reconnect,
    after 5000 ms when the message contains AbortError, else 15000 ms when
    it contains ECONNREFUSED or Connection refused, else 7500 ms when it
    contains Transport failed or Connection reset, else 10000 ms; an error
    without a message (none, or the empty string) schedules nothing, and a
    missing error object makes the handler throw before it schedules. *)
Theorem error_reconnect_delay (name : string) (e : socket_error) :
  on_error name None = Threw ∧
  (message e = None ∨ message e = Some "" → on_error name (Some e) = Returned []) ∧
  (∀ msg, message e = Some msg → msg ≠ "" →
     ∃ d, on_error name (Some e) = Returned [SetTimeout d (ShoukakuReconnect name)] ∧
          d ∈ [5000; 15000; 7500; 10000]%Z ∧
          (includes msg "AbortError" = true → d = 5000%Z) ∧
          (includes msg "AbortError" = false →
           includes msg "ECONNREFUSED" = true ∨ includes msg "Connection refused" = true →
           d = 15000%Z) ∧
          (includes msg "AbortError" = false →
           includes msg "ECONNREFUSED" = false → includes msg "Connection refused" = false →
           includes msg "Transport failed" = true ∨ includes msg "Connection reset" = true →
           d = 7500%Z) ∧
          (includes msg "AbortError" = false →
           includes msg "ECONNREFUSED" = false → includes msg "Connection refused" = false →
           includes msg "Transport failed" = false → includes msg "Connection reset" = false →
           d = 10000%Z)).
Proof.
  destruct e as [m]; simpl. split; [done|]. split.
  - by intros [->| ->].
  - intros msg -> Hne. destruct msg as [|c msg]; [done|].
    exists (reconnectDelay (String c msg)). split; [done|].
    unfold reconnectDelay.
    destruct (includes _ "AbortError"), (includes _ "ECONNREFUSED"),
      (includes _ "Connection refused"), (includes _ "Transport failed"),
      (includes _ "Connection reset"); simpl;
      (split; [by repeat constructor|]); repeat split; intros; intuition congruence.
Qed.

(** *** The other socket events *)

Lemma disconnect_each_spec (players : list (completion unit)) :
  ((Threw ∈ players) ∧ disconnect_each players = Threw) ∨
  ((Threw ∉ players) ∧ disconnect_each players = Returned (length players)).
Proof.
  induction players as [|[[]|] rest IH]; simpl.
  - right. split; [by intros ?%elem_of_nil|done].
  - destruct IH as [[Hin ->]|[Hout ->]]; [left|right].
    + split; [by right|done].
    + split; [|done]. by intros [?|?]%elem_of_cons.
  - left. split; [by left|done].
Qed.

Lemma reconnectDelay_bounds (msg : string) :
  (5000 ≤ reconnectDelay msg ≤ 15000)%Z.
Proof.
  unfold reconnectDelay.
  destruct (includes msg "AbortError"); [lia|].
  destruct (_ || _); [lia|]. destruct (_ || _); lia.
Qed.

(** Whatever comes from the socket of a node (a close, a disconnect, an
    error), the handlers schedule at most one reconnect, of that node,
    between 5 and 15 seconds later.  They schedule none after a normal
    close (code 1000) or a close with a code from 4000 up, after a
    disconnect of a node that was moved or during which a player's
    disconnect threw, and after an error without a message. *)
Theorem socket_reconnects (name : string) (e : socket_event) :
  length (reconnects name e) ≤ 1 ∧
  (∀ t, t ∈ reconnects name e →
     run t = ShoukakuReconnect name ∧ (5000 ≤ delay t ≤ 15000)%Z) ∧
  match e with
  | Close code => reconnects name e = [] ↔ (code = 1000 ∨ 4000 ≤ code)%Z
  | Disconnect players moved => reconnects name e = [] ↔ moved = true ∨ Threw ∈ players
  | SocketError error =>
      reconnects name e = [] ↔
      error = None ∨ ∃ err, error = Some err ∧ truthy (message err) = false
  end.
Proof.
  destruct e as [code|players moved|[err|]]; simpl.
  - unfold on_close. do 2 case_bool_decide; simpl.
    + split; [lia|]. split; [|split; [done|lia]].
      intros t ->%list_elem_of_singleton. simpl. split; [done|lia].
    + split; [lia|]. split; [by intros t ?%elem_of_nil|]. split; [lia|done].
    + split; [lia|]. split; [by intros t ?%elem_of_nil|]. split; [lia|done].
    + split; [lia|]. split; [by intros t ?%elem_of_nil|]. split; [lia|done].
  - unfold on_disconnect. destruct moved; simpl.
    + split; [lia|]. split; [by intros t ?%elem_of_nil|]. split; [by left|done].
    + destruct (disconnect_each_spec players) as [[Hin ->]|[Hout ->]]; simpl.
      * split; [lia|]. split; [by intros t ?%elem_of_nil|]. split; [by right|done].
      * split; [lia|]. split; [|split; [done|by intros [|]]].
        intros t ->%list_elem_of_singleton. simpl. split; [done|lia].
  - destruct (truthy (message err)) eqn:Hmsg; simpl.
    + split; [lia|]. split.
      * intros t ->%list_elem_of_singleton. simpl.
        split; [done|apply reconnectDelay_bounds].
      * split; [done|]. intros [|(err' & [= <-] & Hfalse)]; congruence.
    + split; [lia|]. split; [by intros t ?%elem_of_nil|]. split; [|done].
      intros _. right. by exists err.
  - split; [lia|]. split; [by intros t ?%elem_of_nil|]. split; [by left|done].
Qed.

End ReconnectFacts.

(** ** The keep-alive routes *)

Module KeepAliveFacts.

Import KeepAlive.

(** C10, as stated, fails: the giveaway bot's answer changes with the
    logged-in user, and the poll bot's answer is not a running string. *)
Lemma keepalive_not_one_static_string :
  giveaway_root (Some {| username := "Nova" |}) probe ≠ giveaway_root None probe ∧
  includes (poll_root probe) "running" = false.
Proof. split; [by intros [=]|reflexivity]. Qed.

(** C10, amended.  No keep-alive answer depends on the request.  The music
    bot answers [Bot is running!] and the poll bot [Bot is online], whatever
    the bot's state; the giveaway bot answers the bot's user name followed
    by [ is running!], with [Giveaway Bot] for the name while there is no
    logged-in user or its name is empty. *)
Theorem keepalive_responses (user : option client_user) (req req' : request) :
  music_root req = "Bot is running!" ∧
  poll_root req = "Bot is online" ∧
  giveaway_root user req = giveaway_root user req' ∧
  (user = None ∨ user = Some {| username := "" |} →
   giveaway_root user req = "Giveaway Bot is running!") ∧
  (∀ name, user = Some {| username := name |} → name ≠ "" →
   giveaway_root user req = name +:+ " is running!").
Proof.
  repeat split.
  - by intros [->| ->].
  - intros name -> Hne. unfold giveaway_root, or_else. simpl.
    by destruct name.
Qed.

End KeepAliveFacts.

(** ** The poll *)

Module PollFacts.

Import Poll.

Lemma emojiMap_regional (k : nat) :
  (k < 20)%nat → emojiMap !! k = Some (regional_indicator k).
Proof.
  intros Hk. do 20 (destruct k as [|k]; [reflexivity|]). lia.
Qed.

Lemma push_choices_from (opts : gmap string string) (ks : list nat) (acc : list choice) :
  Forall (λ k, k < 20)%nat ks →
  foldl (push_choice opts) acc ks
  = acc ++ (choice_of opts <$> filter (λ k, truthy (opts !! choice_key k) = true) ks).
Proof.
  intros Hks. revert acc.
  induction Hks as [|k ks Hk _ IH]; intros acc; simpl.
  - by rewrite app_nil_r.
  - rewrite IH. unfold push_choice, choice_of.
    rewrite (emojiMap_regional k Hk). simpl.
    destruct (opts !! choice_key k) as [[|c v]|] eqn:Hv.
    + by rewrite filter_cons_False by (by rewrite Hv).
    + rewrite filter_cons_True by (by rewrite Hv).
      by rewrite fmap_cons, Hv, <- app_assoc.
    + by rewrite filter_cons_False by (by rewrite Hv).
Qed.

Lemma collect_choices_provided (opts : gmap string string) :
  collect_choices opts = choice_of opts <$> provided opts.
Proof.
  unfold collect_choices, provided. rewrite push_choices_from; [done|].
  apply Forall_forall. intros k Hk%elem_of_seq. lia.
Qed.

Lemma react_each_prefix (d : discord) (emojis : list string) :
  (react_each d emojis).1 `prefix_of` emojis.
Proof.
  induction emojis as [|e rest IH]; simpl; [done|].
  destruct (react_ok d e); [|apply prefix_nil].
  destruct (react_each d rest) as [done ok]. by apply prefix_cons.
Qed.




(** The run behind the witness: options b and d give the reactions 🇧, 🇩. *)
Example poll_demo_run :
  provided (options demo_interaction) = [1; 3]%nat ∧
  reactions <$> on_interaction demo_discord demo_interaction = Some ["🇧"; "🇩"].
Proof. split; vm_compute; reflexivity. Qed.

(** *** Further properties of the poll handler *)

Lemma regional_indicator_inj (i j : nat) :
  (i < 20)%nat → (j < 20)%nat → regional_indicator i = regional_indicator j → i = j.
Proof.
  intros Hi Hj Heq. injection Heq as Heq.
  apply (f_equal Ascii.nat_of_ascii) in Heq.
  rewrite !Ascii.nat_ascii_embedding in Heq by lia. lia.
Qed.

Lemma provided_NoDup (opts : gmap string string) : NoDup (provided opts).
Proof. apply NoDup_filter, NoDup_seq. Qed.

Lemma provided_below (opts : gmap string string) (k : nat) : k ∈ provided opts → (k < 20)%nat.
Proof. intros [_ Hk%elem_of_seq]%list_elem_of_filter. lia. Qed.

Lemma prefix_NoDup {A} (l k : list A) : l `prefix_of` k → NoDup k → NoDup l.
Proof. intros [rest ->] Hk. by apply NoDup_app in Hk as [? _]. Qed.

Lemma on_interaction_poll (d : discord) (i : interaction) :
  isChatInputCommand i = true → commandName i = "poll" →
  on_interaction d i =
    let choices := collect_choices (options i) in
    let content := fieldContent choices in
    if negb (reply_ok d) then
      Some {| field := content; reactions := []; finished := false |}
    else
      let '(done, ok) :=
        react_each d (if decide (2 ≤ length choices)
                      then emoji <$> choices
                      else ["👍"; "👎"]) in
      Some {| field := content; reactions := done; finished := ok |}.
Proof. intros Hcmd Hname. unfold on_interaction. by rewrite Hcmd, Hname. Qed.

Lemma on_interaction_other (d : discord) (i : interaction) :
  isChatInputCommand i = false ∨ commandName i ≠ "poll" → on_interaction d i = None.
Proof.
  intros Hother. unfold on_interaction.
  destruct (isChatInputCommand i); [|done].
  destruct (String.eqb_spec (commandName i) "poll"); [|done]. by destruct Hother.
Qed.

Lemma fieldContent_few (choices : list choice) :
  (length choices < 2)%nat → fieldContent choices = fieldContent [].
Proof.
  intros Hfew. unfold fieldContent. rewrite decide_False by lia.
  by rewrite decide_False by (simpl; lia).
Qed.

(** With fewer than two choices given the poll is a yes/no poll: the field
    shows Yes and No, the reactions are 👍 and 👎 in that order, and a
    single choice that was given is shown nowhere. *)
Theorem poll_yes_no_default (d : discord) (i : interaction) :
  isChatInputCommand i = true → commandName i = "poll" →
  (length (provided (options i)) < 2)%nat →
  ∃ o, on_interaction d i = Some o ∧
    field o = fieldContent [] ∧
    reactions o `prefix_of` ["👍"; "👎"] ∧
    (reply_ok d = true → react_ok d "👍" = true → react_ok d "👎" = true →
     reactions o = ["👍"; "👎"] ∧ finished o = true).
Proof.
  intros Hcmd Hname Hfew. rewrite (on_interaction_poll d i Hcmd Hname). cbv zeta.
  assert (Hlen : (length (collect_choices (options i)) < 2)%nat).
  { by rewrite collect_choices_provided, length_fmap. }
  rewrite (decide_False (P := (2 ≤ length (collect_choices (options i)))%nat)) by lia.
  destruct (reply_ok d); cbn [negb].
  - pose proof (react_each_prefix d ["👍"; "👎"]) as Hprefix.
    destruct (react_each d ["👍"; "👎"]) as [done ok] eqn:Hreact.
    eexists. split; [reflexivity|]. split; [by apply fieldContent_few|].
    split; [exact Hprefix|].
    intros _ Hup Hdown. cbn [react_each] in Hreact. rewrite Hup, Hdown in Hreact.
    injection Hreact as <- <-. by split.
  - eexists. split; [reflexivity|]. split; [by apply fieldContent_few|].
    split; [apply prefix_nil|]. intros Hno. discriminate Hno.
Qed.

Lemma poll_yes_no_default_witness :
  ∃ o, on_interaction demo_discord lone_interaction = Some o ∧
    field o = fieldContent [] ∧
    reactions o `prefix_of` ["👍"; "👎"] ∧
    (reply_ok demo_discord = true → react_ok demo_discord "👍" = true →
     react_ok demo_discord "👎" = true →
     reactions o = ["👍"; "👎"] ∧ finished o = true).
Proof.
  apply (poll_yes_no_default demo_discord lone_interaction);
    [reflexivity|reflexivity|vm_compute; lia].
Defined.

(** Whatever the options and whatever Discord answers, the handler never
    puts the same emoji twice on its reply, puts at most twenty, and puts
    none when the reply itself failed. *)
Theorem poll_reactions_distinct (d : discord) (i : interaction) (o : outcome) :
  on_interaction d i = Some o →
  NoDup (reactions o) ∧ (length (reactions o) ≤ 20)%nat ∧
  (reply_ok d = false → reactions o = [] ∧ finished o = false).
Proof.
  destruct (isChatInputCommand i) eqn:Hcmd;
    [|by rewrite on_interaction_other by (by left)].
  destruct (String.eqb_spec (commandName i) "poll") as [Hname|Hname];
    [|by rewrite on_interaction_other by (by right)].
  rewrite (on_interaction_poll d i Hcmd Hname). cbv zeta.
  assert (Hdistinct : NoDup (regional_indicator <$> provided (options i))).
  { apply NoDup_fmap_2_strong; [|apply provided_NoDup].
    intros x y Hx%provided_below Hy%provided_below. by apply regional_indicator_inj. }
  assert (Hmost : (length (regional_indicator <$> provided (options i)) ≤ 20)%nat).
  { rewrite length_fmap. unfold provided.
    etrans; [apply length_filter|]. by rewrite length_seq. }
  assert (Hemo : emoji <$> collect_choices (options i)
                 = regional_indicator <$> provided (options i)).
  { rewrite collect_choices_provided, <- list_fmap_compose. done. }
  destruct (reply_ok d); cbn [negb].
  - set (emojis := if decide _ then _ else _).
    assert (Hboth : NoDup emojis ∧ (length emojis ≤ 20)%nat).
    { unfold emojis. case_decide.
      - by rewrite Hemo.
      - split; [|cbn [length]; lia]. apply NoDup_cons. split; [|apply NoDup_singleton].
        rewrite list_elem_of_singleton. discriminate. }
    destruct Hboth as [Hnodup Hlength].
    pose proof (react_each_prefix d emojis) as Hprefix.
    destruct (react_each d emojis) as [done ok]. intros [= <-]. cbn [reactions fst] in *.
    split; [by eapply prefix_NoDup|]. split; [|intros Hno; discriminate Hno].
    apply prefix_length in Hprefix. lia.
  - intros [= <-]. cbn [reactions finished length]. split; [constructor|]. split; [lia|done].
Qed.

Lemma poll_reactions_distinct_witness :
  NoDup ["🇧"; "🇩"] ∧ (length ["🇧"; "🇩"] ≤ 20)%nat ∧
  (reply_ok demo_discord = false → ["🇧"; "🇩"] = [] ∧ true = false).
Proof.
  apply (poll_reactions_distinct demo_discord demo_interaction
           {| field := fieldContent (collect_choices (options demo_interaction));
              reactions := ["🇧"; "🇩"]; finished := true |}).
  vm_compute. reflexivity.
Defined.

End PollFacts.

(** ** The giveaways *)

Module GiveawayFacts.

Import Giveaway.

(** *** The winner draw *)




(** More fuel than participants changes nothing: the loop stops by its own
    condition. *)
Lemma draw_fuel_enough (fuel : nat) rnd count (i : nat) (ps : list snowflake) picked :
  length ps ≤ fuel →
  draw fuel rnd count i ps picked = draw (length ps) rnd count i ps picked.
Proof.
  revert i ps picked. induction fuel as [|fuel IH]; intros i ps picked Hfuel.
  - by destruct ps; [|simpl in Hfuel; lia].
  - destruct ps as [|p ps]; simpl.
    + by rewrite andb_false_r.
    + destruct (bool_decide (Z.of_nat i < count)%Z); simpl; [|done].
      set (k := random_below (rnd i) (S (length ps))).
      assert (Hk : k < S (length ps)) by (apply random_below_lt; lia).
      assert (Hlen : length (delete k (p :: ps)) = length ps).
      { rewrite length_delete by (by apply lookup_lt_is_Some_2). simpl. lia. }
      rewrite IH by (rewrite Hlen; simpl in Hfuel; lia).
      by rewrite Hlen.
Qed.

(** The loop picks distinct participants, as many as the places left and
    the participants allow. *)
Lemma draw_chosen (fuel : nat) rnd count (i : nat) (ps : list snowflake) picked :
  ∃ chosen rest,
    draw fuel rnd count i ps picked = picked ++ ((mention ∘ Some) <$> chosen) ∧
    chosen ++ rest ≡ₚ ps ∧
    (length ps ≤ fuel → length chosen = Z.to_nat (count - Z.of_nat i) `min` length ps).
Proof.
  revert i ps picked. induction fuel as [|fuel IH]; intros i ps picked.
  - exists [], ps. simpl. rewrite app_nil_r. repeat split; [done|]. lia.
  - simpl. case_bool_decide as Hi; simpl; [case_bool_decide as Hps; simpl|].
    + set (k := random_below (rnd i) (length ps)).
      assert (Hk : k < length ps) by (by apply random_below_lt).
      destruct (lookup_lt_is_Some_2 ps k Hk) as [x Hx].
      destruct (IH (S i) (delete k ps) (picked ++ [mention (ps !! k)]))
        as (chosen & rest & Hdraw & Hperm & Hlen).
      exists (x :: chosen), rest. rewrite Hdraw, Hx, <- app_assoc. simpl.
      split; [done|]. split.
      * by rewrite (delete_Permutation ps k x Hx), <- Hperm.
      * intros Hfuel. rewrite length_delete in Hlen by eauto. lia.
    + exists [], ps. rewrite app_nil_r. repeat split; [done|]. simpl. lia.
    + exists [], ps. rewrite app_nil_r. repeat split; [done|]. simpl. lia.
Qed.






(** The draw behind the witness: both members win, the bot does not. *)
Example demo_draw :
  pick_winners (random world_at_end) 2 (participants_of [helper; alice; bob])
  = ["<@101>"; "<@102>"].
Proof. by vm_compute. Qed.

(** *** What the handlers do to the maps *)

Lemma endGiveaway_absent (w : world) (m channel : snowflake) (s : state) :
  activeGiveaways s !! m = None → endGiveaway w m channel s = (Returned false, [], s).
Proof. intros Hm. unfold endGiveaway. by rewrite Hm. Qed.

(** With an entry for [m], the call always removes the entry and its
    timer; it records a snapshot exactly when it returns [true]. *)
Lemma endGiveaway_present (w : world) (m channel : snowflake) (s : state) (g : giveaway) :
  activeGiveaways s !! m = Some g →
  ∃ r out ended',
    endGiveaway w m channel s = (r, out, removed m g ended' s) ∧
    ((r = Returned true ∧ (∃ e, ended' = <[m := e]> (endedGiveaways s)) ∧
      is_Some (fetch_message w channel m)) ∨
     (r ≠ Returned true ∧ ended' = endedGiveaways s)).
Proof.
  intros Hm. unfold endGiveaway. rewrite Hm.
  destruct (fetch_message w channel m) as [msg|];
    [|by eexists _, _, _; split; [done|right]].
  destruct (party_users msg) as [[users|]|];
    [|by eexists _, _, _; split; [done|right]..].
  destruct (send w channel) as [endMessage|];
    [|by eexists _, _, _; split; [done|right]].
  eexists _, _, _. split; [done|]. left. eauto.
Qed.

Lemma start_giveaway_transition (w : world) channel duration prize count (s : state) :
  transition w s (start_giveaway w channel duration prize count s).2.
Proof.
  unfold start_giveaway. destruct (send w channel) as [m|] eqn:Hsend; [|constructor].
  destruct (react w); simpl; [|constructor].
  by apply (transition_start w s channel duration prize count m).
Qed.

Lemma end_command_transition (w : world) (m channel : snowflake) (s : state) :
  transition w s (end_command w m channel s).2.
Proof.
  unfold end_command. destruct (activeGiveaways s !! m) as [g|] eqn:Hm.
  - destruct (endGiveaway_present w m channel s g Hm) as (r & out & ended' & -> & Hr).
    assert (Ht : transition w s (removed m g ended' s)).
    { apply transition_end; [done|]. destruct Hr as [(_ & He & _)|[_ ->]]; auto. }
    by destruct r as [[]|].
  - rewrite endGiveaway_absent by done. constructor.
Qed.

Lemma reroll_command_transition (w : world) (m : snowflake) (s : state) :
  transition w s (reroll_command w m s).2.
Proof.
  unfold reroll_command. destruct (rerollGiveaway w m s) as [[r|]|]; constructor.
Qed.

Lemma on_message_transition (w : world) (p : prefix_message) (s : state) :
  transition w s (on_message w p s).2.
Proof.
  unfold on_message, replied.
  repeat case_match; simpl;
    first [ apply start_giveaway_transition | apply end_command_transition
          | apply reroll_command_transition | constructor ].
Qed.

Lemma on_interaction_transition (w : world) (i : interaction) (s : state) :
  transition w s (on_interaction w i s).2.
Proof.
  unfold on_interaction, replied.
  repeat case_match; simpl;
    first [ apply start_giveaway_transition | apply end_command_transition
          | apply reroll_command_transition | constructor ].
Qed.

(** A timer that fires belongs to an entry, which its callback removes. *)
Lemma on_timer_fired (w : world) (t : timer_id) (s : state) d m channel :
  consistent s → timers s !! t = Some (d, EndGiveaway m channel) →
  ∃ g r out ended',
    activeGiveaways s !! m = Some g ∧ timeout g = t ∧
    on_timer w t s = (r, out, removed m g ended' s) ∧
    (ended' = endedGiveaways s ∨ ∃ e, ended' = <[m := e]> (endedGiveaways s)).
Proof.
  intros Hs Ht. destruct (timer_entry s Hs t d m channel Ht) as (g & Hg & Htg).
  unfold on_timer. rewrite Ht.
  edestruct (endGiveaway_present w m channel) as (r & out & ended' & -> & Hr);
    [exact Hg|].
  exists g, (match r with Returned _ => Returned () | Threw => Threw end), out, ended'.
  split; [done|]. split; [done|]. split.
  - unfold removed. simpl. by rewrite Htg, delete_delete_eq.
  - destruct Hr as [(_ & He & _)|[_ ->]]; auto.
Qed.

Lemma handle_transition (w : world) (e : event) (s : state) :
  consistent s → transition w s (step w e s).
Proof.
  intros Hs. unfold step. destruct e as [p|i|t]; simpl.
  - apply on_message_transition.
  - apply on_interaction_transition.
  - destruct (timers s !! t) as [[d [m channel]]|] eqn:Ht.
    + destruct (on_timer_fired w t s d m channel Hs Ht)
        as (g & r & out & ended' & Hg & _ & -> & He).
      by apply transition_end.
    + unfold on_timer. rewrite Ht. constructor.
Qed.

Lemma initial_consistent : consistent initial.
Proof.
  split; simpl; intros *; rewrite ?lookup_empty; try done.
  - by intros [?%is_Some_None|?%is_Some_None].
Qed.

Lemma removed_consistent (s : state) (m : snowflake) (g : giveaway) ended' :
  consistent s → activeGiveaways s !! m = Some g →
  ended' = endedGiveaways s ∨ (∃ e, ended' = <[m := e]> (endedGiveaways s)) →
  consistent (removed m g ended' s).
Proof.
  intros Hs Hg Hended.
  destruct (entry_timer s Hs m g Hg) as [dg Hdg].
  split; simpl.
  + intros m' g' [Hne Hg']%lookup_delete_Some.
    destruct (entry_timer s Hs m' g' Hg') as [d Hd].
    exists d. rewrite lookup_delete_ne; [done|].
    intros Heq. rewrite Heq in Hdg. rewrite Hdg in Hd. by simplify_eq.
  + intros t d m' ch [Hne Ht]%lookup_delete_Some.
    destruct (timer_entry s Hs t d m' ch Ht) as (g' & Hg' & Htg').
    exists g'. split; [|done]. rewrite lookup_delete_ne; [done|].
    intros <-. by simplify_eq.
  + intros m' [Hne Hm']%lookup_delete_is_Some.
    pose proof (active_not_ended s Hs m' Hm') as Hnone.
    destruct Hended as [->|[e ->]]; [done|]. by rewrite lookup_insert_ne.
  + intros t [_ Ht]%lookup_delete_is_Some. by apply (timers_below s Hs).
  + intros m' Hm'. apply (known_ids s Hs).
    destruct Hm' as [[_ Hm']%lookup_delete_is_Some|Hm']; [by left|].
    destruct Hended as [->|[e ->]]; [by right|].
    apply lookup_insert_is_Some' in Hm' as [<-|Hm']; [left; eauto|by right].
Qed.

Lemma transition_consistent (w : world) (s s' : state) :
  consistent s → fresh_ids w s → transition w s s' → consistent s'.
Proof.
  intros Hs Hfresh [|channel duration prize count m Hsend|m g ended' Hg Hended];
    [done| |by apply removed_consistent].
  - assert (Hm : m ∉ issued s) by eauto.
    assert (Hactive : activeGiveaways s !! m = None).
    { apply eq_None_not_Some. intros H. apply Hm, (known_ids s Hs). auto. }
    assert (Hold : endedGiveaways s !! m = None).
    { apply eq_None_not_Some. intros H. apply Hm, (known_ids s Hs). auto. }
    assert (Htimer : timers s !! next_timer s = None).
    { apply eq_None_not_Some. intros H%(timers_below s Hs). lia. }
    split; simpl.
    + intros m' g' [[<- <-]|[Hne Hg']]%lookup_insert_Some; simpl.
      * rewrite lookup_insert_eq. eauto.
      * destruct (entry_timer s Hs m' g' Hg') as [d Hd].
        exists d. rewrite lookup_insert_ne; [done|].
        intros Heq. rewrite <- Heq in Hd. by rewrite Htimer in Hd.
    + intros t d m' ch [[<- [= <- <- <-]]|[Hne Ht]]%lookup_insert_Some.
      * eexists. by rewrite lookup_insert_eq.
      * destruct (timer_entry s Hs t d m' ch Ht) as (g' & Hg' & Htg').
        exists g'. split; [|done]. rewrite lookup_insert_ne; [done|].
        intros <-. by rewrite Hactive in Hg'.
    + intros m' [<-|[_ Hm']]%lookup_insert_is_Some; [done|].
      by apply (active_not_ended s Hs).
    + intros t [<-|[_ Ht]]%lookup_insert_is_Some; [lia|].
      apply (timers_below s Hs) in Ht. lia.
    + intros m' Hm'. apply elem_of_union.
      destruct (decide (m = m')) as [<-|Hne]; [left; by apply elem_of_singleton|].
      right. apply (known_ids s Hs).
      rewrite lookup_insert_ne in Hm' by done. done.
Qed.

Lemma run_consistent (s0 s : state) : consistent s0 → run_from s0 s → consistent s.
Proof.
  intros H0. induction 1 as [|w e s Hrun IH Hfresh]; [done|].
  eapply transition_consistent; [exact IH|exact Hfresh|].
  by apply handle_transition.
Qed.

Lemma reachable_consistent (s : state) : reachable s → consistent s.
Proof. apply run_consistent, initial_consistent. Qed.

Lemma transition_retired (w : world) (s s' : state) (m : snowflake) :
  fresh_ids w s → transition w s s' → retired m s → retired m s'.
Proof.
  intros Hfresh [|channel duration prize count m' Hsend|m' g ended' Hg Hended]
    (Hissued & Hactive & Hended'); [done|..]; repeat split; simpl.
  - apply elem_of_union. by right.
  - rewrite lookup_insert_ne; [done|]. intros ->. by apply (Hfresh _ _ Hsend).
  - done.
  - done.
  - apply lookup_delete_None. by right.
  - destruct Hended as [->|[e ->]]; [done|].
    rewrite lookup_insert_ne; [done|]. intros ->. by rewrite Hactive in Hg.
Qed.

Lemma run_retired (s0 s : state) (m : snowflake) :
  consistent s0 → retired m s0 → run_from s0 s → retired m s.
Proof.
  intros H0 Hm. induction 1 as [|w e s Hrun IH Hfresh]; [done|].
  eapply transition_retired; [exact Hfresh| |exact IH].
  apply handle_transition. by eapply run_consistent.
Qed.

(** *** After [endGiveaway] *)

(** C6.  In a state the bot can reach, a call of [endGiveaway] on a
    message that has an entry, once it returns, has removed the entry and
    cleared its timer whatever it returns; the snapshot is in
    [endedGiveaways] exactly when it returned [true]; when the message
    fetch fails it returns [false], and no later run records a snapshot
    for that message. *)
Theorem endGiveaway_clears_entry (w : world) (s : state) (m channel : snowflake)
    (g : giveaway) (b : bool) (out : list output) (s' : state) :
  reachable s → activeGiveaways s !! m = Some g →
  endGiveaway w m channel s = (Returned b, out, s') →
  activeGiveaways s' !! m = None ∧
  timers s' !! timeout g = None ∧
  (is_Some (endedGiveaways s' !! m) ↔ b = true) ∧
  (fetch_message w channel m = None → b = false) ∧
  (b = false → ∀ s'', run_from s' s'' → endedGiveaways s'' !! m = None).
Proof.
  intros Hs%reachable_consistent Hg Hend.
  destruct (endGiveaway_present w m channel s g Hg) as (r & out' & ended' & Heq & Hr).
  rewrite Heq in Hend. injection Hend as -> -> <-.
  pose proof (active_not_ended s Hs m (mk_is_Some _ _ Hg)) as Hnone.
  split; [apply lookup_delete_eq|]. split; [apply lookup_delete_eq|].
  destruct Hr as [([= ->] & [e ->] & Hfetch)|[Hr ->]]; simpl.
  - rewrite lookup_insert_eq. split; [done|]. split.
    + intros Hf. rewrite Hf in Hfetch. by destruct Hfetch.
    + done.
  - assert (b = false) as -> by (destruct b; congruence).
    rewrite Hnone. split; [split; [by intros []|done]|]. split; [done|].
    intros _ s'' Hrun.
    assert (Hret : retired m (removed m g (endedGiveaways s) s)).
    { repeat split; simpl; [|apply lookup_delete_eq|done].
      apply (known_ids s Hs). left. eauto. }
    eapply run_retired in Hrun; [by destruct Hrun as (_ & _ & ?)| |done].
    apply removed_consistent; auto.
Qed.

Lemma started_demo_reachable : reachable started_demo.
Proof.
  apply run_step; [constructor|]. intros channel m _. apply not_elem_of_empty.
Qed.

Lemma endGiveaway_clears_entry_witness :
  activeGiveaways (endGiveaway world_at_end "900" "c0" started_demo).2 !! "900" = None ∧
  (is_Some (endedGiveaways (endGiveaway world_at_end "900" "c0" started_demo).2 !! "900")
   ↔ false = true).
Proof.
  assert (Hg : activeGiveaways started_demo !! "900"
               = Some {| channelId := "c1"; prize := "Book"; winners := 2; timeout := 0 |})
    by (by vm_compute).
  assert (Hend : endGiveaway world_at_end "900" "c0" started_demo
                 = (Returned false, [],
                    (endGiveaway world_at_end "900" "c0" started_demo).2))
    by (by vm_compute).
  destruct (endGiveaway_clears_entry _ _ _ _ _ _ _ _ started_demo_reachable Hg Hend)
    as (Hgone & _ & Hsnapshot & _).
  by split.
Defined.

(** *** The life of an entry of [activeGiveaways] *)

Lemma start_creates (w : world) channel duration prize count (s : state) (m : snowflake) :
  send w channel = Returned m → react w = true →
  (start_giveaway w channel duration prize count s).2
  = started w channel duration prize count m s.
Proof. intros Hsend Hreact. unfold start_giveaway. by rewrite Hsend, Hreact. Qed.

Lemma start_only_creates (w : world) channel duration prize count (s : state) m :
  activeGiveaways s !! m = None →
  is_Some (activeGiveaways (start_giveaway w channel duration prize count s).2 !! m) →
  send w channel = Returned m ∧ react w = true.
Proof.
  intros Hm. unfold start_giveaway.
  destruct (send w channel) as [m'|]; simpl; [|rewrite Hm; by intros []].
  destruct (react w); simpl; [|rewrite Hm; by intros []].
  intros [->|[_ H]]%lookup_insert_is_Some; [done|]. rewrite Hm in H. by destruct H.
Qed.

Lemma start_leaves_entries (w : world) channel duration prize count (s : state) m :
  consistent s → fresh_ids w s → is_Some (activeGiveaways s !! m) →
  activeGiveaways (start_giveaway w channel duration prize count s).2 !! m
  = activeGiveaways s !! m.
Proof.
  intros Hs Hfresh Hm. unfold start_giveaway.
  destruct (send w channel) as [m'|] eqn:Hsend; simpl; [|done].
  destruct (react w); simpl; [|done].
  rewrite lookup_insert_ne; [done|]. intros ->.
  apply (Hfresh _ _ Hsend), (known_ids s Hs). by left.
Qed.

Lemma end_command_active (w : world) (m channel : snowflake) (s : state) :
  activeGiveaways (end_command w m channel s).2 = delete m (activeGiveaways s).
Proof.
  unfold end_command. destruct (activeGiveaways s !! m) as [g|] eqn:Hm.
  - destruct (endGiveaway_present w m channel s g Hm) as (r & out & ended' & -> & _).
    by destruct r as [[]|].
  - rewrite endGiveaway_absent by done. simpl. by rewrite delete_id.
Qed.

Lemma reroll_command_state (w : world) (m : snowflake) (s : state) :
  (reroll_command w m s).2 = s.
Proof. unfold reroll_command. by destruct (rerollGiveaway w m s) as [[r|]|]. Qed.

Lemma message_kind (w : world) (p : prefix_message) (s : state) :
  event_kind w s (MessageCreate p) (step w (MessageCreate p) s).
Proof.
  unfold step. simpl. unfold on_message, replied. cbv zeta.
  destruct (author_bot p) eqn:Hbot; simpl; [apply kind_other; refute|].
  destruct (has_prefix p) eqn:Hpre; simpl; [|apply kind_other; refute].
  destruct (String.eqb_spec (command p) "start") as [Hstart|Hstart].
  { destruct (member_can_manage p) eqn:Hperm; simpl; [|apply kind_other; refute].
    destruct (mentioned_channel p) as [channel|] eqn:Hch; [|apply kind_other; refute].
    destruct (args p !! 1) as [[|c0 d0]|] eqn:Hdur; simpl;
      [apply kind_other; refute| |apply kind_other; refute].
    destruct (join " " (prize_words (args p))) as [|c1 p1] eqn:Hprize; simpl;
      [apply kind_other; refute|].
    destruct (parseInt w (default "undefined" (last (args p)))) as [count|] eqn:Hcount;
      [|apply kind_other; refute].
    case_bool_decide as Hlow; [apply kind_other; refute|].
    apply (kind_start w s _ _ channel (String c0 d0) (String c1 p1) count);
      [|refute|refute|done].
    simpl. rewrite Hprize. repeat split; try done. lia. }
  destruct (String.eqb_spec (command p) "end") as [Hend|Hend].
  { destruct (member_can_manage p) eqn:Hperm; simpl; [|apply kind_other; refute].
    destruct (args p !! 0) as [[|c0 m0]|] eqn:Hid; simpl;
      [apply kind_other; refute| |apply kind_other; refute].
    apply (kind_end w s _ _ (String c0 m0)); [done|refute|refute|].
    apply end_command_active. }
  destruct (String.eqb_spec (command p) "reroll") as [Hre|Hre].
  { apply kind_other; [refute|refute|].
    destruct (member_can_manage p); simpl; [|done].
    destruct (truthy (args p !! 0)); simpl; [|done].
    by rewrite reroll_command_state. }
  apply kind_other; [refute|refute|]. by case_bool_decide.
Qed.

Lemma interaction_kind (w : world) (i : interaction) (s : state) :
  event_kind w s (InteractionCreate i) (step w (InteractionCreate i) s).
Proof.
  unfold step. simpl. unfold on_interaction, replied.
  destruct (isCommand i) eqn:Hcmd; simpl; [|apply kind_other; refute].
  destruct (slash_command i) as [channel duration prize count|m|m|name] eqn:Hslash.
  - destruct (can_manage i) eqn:Hperm; simpl; [|apply kind_other; refute].
    apply (kind_start w s _ _ channel duration prize count); [done|refute|refute|done].
  - destruct (can_manage i) eqn:Hperm; simpl; [|apply kind_other; refute].
    apply (kind_end w s _ _ m); [done|refute|refute|]. apply end_command_active.
  - apply kind_other; [refute|refute|].
    destruct (can_manage i); simpl; [|done]. by rewrite reroll_command_state.
  - apply kind_other; [refute|refute|]. by case_bool_decide.
Qed.

Lemma timer_kind (w : world) (t : timer_id) (s : state) :
  consistent s → event_kind w s (TimerFired t) (step w (TimerFired t) s).
Proof.
  intros Hs. destruct (timers s !! t) as [[d [m channel]]|] eqn:Ht.
  - destruct (on_timer_fired w t s d m channel Hs Ht)
      as (g & r & out & ended' & Hg & Htg & Hrun & _).
    apply (kind_end w s _ _ m); simpl.
    + by rewrite Hg, <- Htg.
    + intros m' Hm'. destruct (activeGiveaways s !! m') as [g'|] eqn:Hg'; [|done].
      injection Hm' as Htg'. destruct (entry_timer s Hs m' g' Hg') as [d' Hd'].
      rewrite Htg', Ht in Hd'. by simplify_eq.
    + by intros ???? [].
    + unfold step. simpl. by rewrite Hrun.
  - apply kind_other; simpl.
    + by intros ???? [].
    + intros m Hm. destruct (activeGiveaways s !! m) as [g|] eqn:Hg; [|done].
      injection Hm as Htg. destruct (entry_timer s Hs m g Hg) as [d Hd].
      rewrite Htg, Ht in Hd. done.
    + unfold step. simpl. unfold on_timer. by rewrite Ht.
Qed.

Lemma event_cases (w : world) (e : event) (s : state) :
  consistent s → event_kind w s e (step w e s).
Proof.
  intros Hs. destruct e as [p|i|t];
    [apply message_kind|apply interaction_kind|by apply timer_kind].
Qed.

(** C4, as stated, fails: an [end] command from a member who may not
    manage messages is refused, and the entry stays. *)
Lemma refused_end_keeps_entry :
  activeGiveaways started_demo !! "900"
  = Some {| channelId := "c1"; prize := "Book"; winners := 2; timeout := 0 |} ∧
  (handle world_at_end (slash_end false "900" "c1") started_demo).1.2
  = [Reply "You need the Manage Messages permission to end giveaways."] ∧
  activeGiveaways (step world_at_end (slash_end false "900" "c1") started_demo) !! "900"
  = Some {| channelId := "c1"; prize := "Book"; winners := 2; timeout := 0 |}.
Proof. split; [|split]; by vm_compute. Qed.

(** C4, amended.  In a state the bot can reach: a [start] command (prefix
    or slash) that passes its checks and whose message is posted and
    reacted to creates the entry of that message, with the channel, the
    prize, the winner count and the pending timer; entries appear in no
    other way; an entry is removed exactly when its timer fires or an
    [end] command naming it comes from a member with the Manage Messages
    permission; and the map holds one entry per message id at most. *)
Theorem activeGiveaways_lifecycle (w : world) (e : event) (s : state) :
  reachable s → fresh_ids w s →
  (∀ channel duration prize count m,
     starts_giveaway w e channel duration prize count →
     send w channel = Returned m → react w = true →
     activeGiveaways (step w e s) !! m
     = Some {| channelId := channel; prize := prize;
               winners := count; timeout := next_timer s |} ∧
     timers (step w e s) !! next_timer s = Some (ms w duration, EndGiveaway m channel)) ∧
  (∀ m, activeGiveaways s !! m = None → is_Some (activeGiveaways (step w e s) !! m) →
     ∃ channel duration prize count,
       starts_giveaway w e channel duration prize count ∧ send w channel = Returned m) ∧
  (∀ m, is_Some (activeGiveaways s !! m) →
     (activeGiveaways (step w e s) !! m = None ↔ ends_giveaway s m e)) ∧
  NoDup (map_to_list (activeGiveaways (step w e s))).*1.
Proof.
  intros Hs%reachable_consistent Hfresh.
  pose proof (event_cases w e s Hs) as Hkind.
  split; [|split; [|split]]; [| | |apply NoDup_fst_map_to_list].
  - intros channel duration prize count m Hstart Hsend Hreact.
    destruct Hkind as [c d p n _ Hsame _ Heq|m' _ _ Hno _|Hno _ _];
      [|by destruct (Hno _ _ _ _ Hstart)..].
    specialize (Hsame _ _ _ _ Hstart) as [= -> -> -> ->].
    rewrite Heq, (start_creates w c d p n s m Hsend Hreact). simpl.
    by rewrite !lookup_insert_eq.
  - intros m Hm Hnew.
    destruct Hkind as [c d p n Hstart _ _ Heq|m' _ _ _ Heq|_ _ Heq].
    + rewrite Heq in Hnew.
      destruct (start_only_creates w c d p n s m Hm Hnew) as [Hsend _].
      by exists c, d, p, n.
    + rewrite Heq in Hnew. apply lookup_delete_is_Some in Hnew as [_ Hnew].
      rewrite Hm in Hnew. by destruct Hnew.
    + rewrite Heq, Hm in Hnew. by destruct Hnew.
  - intros m Hm.
    destruct Hkind as [c d p n _ _ Hno Heq|m' Hend Honly _ Heq|_ Hno Heq].
    + rewrite Heq, start_leaves_entries by done. split; [|by intros ?%Hno].
      intros Hnone. rewrite Hnone in Hm. by destruct Hm.
    + rewrite Heq, lookup_delete_None. split.
      * intros [<-|Hnone]; [done|]. rewrite Hnone in Hm. by destruct Hm.
      * intros ->%Honly. by left.
    + rewrite Heq. split; [|by intros ?%Hno].
      intros Hnone. rewrite Hnone in Hm. by destruct Hm.
Qed.

Lemma activeGiveaways_lifecycle_witness :
  activeGiveaways (step world_at_end (TimerFired 0) started_demo) !! "900" = None ∧
  activeGiveaways (step world_at_end (slash_end true "900" "c0") started_demo) !! "900"
  = None.
Proof.
  assert (Hfresh : fresh_ids world_at_end started_demo).
  { intros channel m [= <-]. vm_compute. intros Hin. discriminate Hin. }
  assert (Hm : is_Some (activeGiveaways started_demo !! "900"))
    by (eexists; vm_compute; reflexivity).
  split.
  - destruct (activeGiveaways_lifecycle world_at_end (TimerFired 0) started_demo
                started_demo_reachable Hfresh) as (_ & _ & Hends & _).
    apply (Hends "900" Hm). by vm_compute.
  - destruct (activeGiveaways_lifecycle world_at_end (slash_end true "900" "c0")
                started_demo started_demo_reachable Hfresh) as (_ & _ & Hends & _).
    apply (Hends "900" Hm). by vm_compute.
Defined.

(** *** Further properties of the giveaway handlers *)

Lemma run_trans (s0 s1 s2 : state) : run_from s0 s1 → run_from s1 s2 → run_from s0 s2.
Proof. intros H01. induction 1; [done|]. by constructor. Qed.

(** In every state the bot reaches, each entry of [activeGiveaways] has a
    pending timer whose callback ends that very giveaway in its channel,
    each pending timer belongs to the entry of its message, no two entries
    share a timer, and no message id is in both maps. *)
Theorem giveaway_maps_consistent (s : state) :
  reachable s →
  (∀ m g, activeGiveaways s !! m = Some g →
     ∃ d, timers s !! timeout g = Some (d, EndGiveaway m (channelId g))) ∧
  (∀ t d m channel, timers s !! t = Some (d, EndGiveaway m channel) →
     ∃ g, activeGiveaways s !! m = Some g ∧ timeout g = t ∧ channelId g = channel) ∧
  (∀ m g m' g', activeGiveaways s !! m = Some g → activeGiveaways s !! m' = Some g' →
     timeout g = timeout g' → m = m') ∧
  (∀ m, is_Some (activeGiveaways s !! m) → endedGiveaways s !! m = None).
Proof.
  intros Hs%reachable_consistent. split; [|split; [|split]].
  - apply (entry_timer s Hs).
  - intros t d m channel Ht.
    destruct (timer_entry s Hs t d m channel Ht) as (g & Hg & Htg).
    exists g. split; [done|]. split; [done|].
    destruct (entry_timer s Hs m g Hg) as [d' Hd']. rewrite Htg, Ht in Hd'.
    by simplify_eq.
  - intros m g m' g' Hg Hg' Heq.
    destruct (entry_timer s Hs m g Hg) as [d Hd].
    destruct (entry_timer s Hs m' g' Hg') as [d' Hd'].
    rewrite Heq, Hd' in Hd. by simplify_eq.
  - apply (active_not_ended s Hs).
Qed.

Lemma giveaway_maps_consistent_witness :
  ∃ d, timers started_demo !! 0 = Some (d, EndGiveaway "900" "c1").
Proof.
  destruct (giveaway_maps_consistent started_demo started_demo_reachable) as [Hentry _].
  apply (Hentry "900" {| channelId := "c1"; prize := "Book"; winners := 2; timeout := 0 |}).
  by vm_compute.
Defined.

(** A giveaway is ended once: whatever the first [endGiveaway] came to
    (also a throw, or a failed fetch from the wrong channel), a second call
    for the same message returns [false], posts nothing and changes
    nothing. *)
Theorem endGiveaway_twice (w w' : world) (m channel channel' : snowflake) (s : state) :
  endGiveaway w' m channel' (endGiveaway w m channel s).2
  = (Returned false, [], (endGiveaway w m channel s).2).
Proof.
  apply endGiveaway_absent.
  destruct (activeGiveaways s !! m) as [g|] eqn:Hm.
  - destruct (endGiveaway_present w m channel s g Hm) as (r & out & ended' & -> & _).
    apply lookup_delete_eq.
  - by rewrite endGiveaway_absent.
Qed.

(** A reroll works on the snapshot taken when the giveaway ended: the
    channel the end ran in, the prize, the winner count and the id of the
    announcement; only the users of the reaction are fetched anew. *)
Theorem end_then_reroll (w w' : world) (m channel : snowflake) (s s' : state)
    (g : giveaway) (out : list output) (users : list user) :
  activeGiveaways s !! m = Some g →
  endGiveaway w m channel s = (Returned true, out, s') →
  fetch_channel w' channel = true →
  fetch_message w' channel m = Some {| party_users := Some (Returned users) |} →
  ∃ announcement,
    send w channel = Returned announcement ∧
    rerollGiveaway w' m s'
    = Returned (Some {| reroll_prize := prize g;
                        reroll_winners :=
                          pick_winners (random w') (winners g) (participants_of users);
                        reroll_channel := channel;
                        reroll_endMessageId := announcement |}).
Proof.
  intros Hg Hend Hchannel Hmessage. unfold endGiveaway in Hend. rewrite Hg in Hend.
  destruct (fetch_message w channel m) as [msg|]; [|by simplify_eq].
  destruct (party_users msg) as [[us|]|]; [|by simplify_eq..].
  destruct (send w channel) as [announcement|]; [|by simplify_eq].
  injection Hend as <- <-. exists announcement. split; [done|].
  unfold rerollGiveaway. simpl. rewrite lookup_insert_eq. simpl.
  by rewrite Hchannel, Hmessage.
Qed.

Lemma end_then_reroll_witness :
  ∃ announcement,
    send world_at_end "c1" = Returned announcement ∧
    rerollGiveaway world_at_end "900" ended_demo
    = Returned (Some {| reroll_prize := "Book";
                        reroll_winners :=
                          pick_winners (random world_at_end) 2
                                       (participants_of [helper; alice; bob]);
                        reroll_channel := "c1";
                        reroll_endMessageId := announcement |}).
Proof.
  apply (end_then_reroll world_at_end world_at_end "900" "c1" started_demo ended_demo
           {| channelId := "c1"; prize := "Book"; winners := 2; timeout := 0 |}
           [Post "c1" "🎉 GIVEAWAY ENDED 🎉"
              (endDescription
                 {| channelId := "c1"; prize := "Book"; winners := 2; timeout := 0 |}
                 ["<@101>"; "<@102>"])]
           [helper; alice; bob]); by vm_compute.
Defined.

(** A snapshot of [endedGiveaways], once taken, is never changed or
    removed by anything that happens later. *)
Theorem snapshots_kept (s s' : state) (m : snowflake) (x : ended) :
  reachable s → run_from s s' →
  endedGiveaways s !! m = Some x → endedGiveaways s' !! m = Some x.
Proof.
  intros Hs Hrun Hx. induction Hrun as [|w e s' Hrun IH Hfresh]; [done|].
  assert (Hs' : consistent s').
  { apply reachable_consistent. by apply (run_trans initial s s'). }
  destruct (handle_transition w e s' Hs')
    as [|channel duration prize count m' Hsend|m' g ended' Hg Hended]; [done..|].
  simpl. destruct Hended as [->|[e' ->]]; [done|].
  rewrite lookup_insert_ne; [done|]. intros ->.
  rewrite (active_not_ended s' Hs' m) in IH by eauto. done.
Qed.

Lemma snapshots_kept_witness :
  endedGiveaways (step world_at_end (slash_end true "900" "c1") ended_demo) !! "900"
  = Some {| ended_channelId := "c1"; ended_prize := "Book"; ended_winners := 2;
            endedAt := 3600000; endMessageId := "901" |}.
Proof.
  assert (Hfresh : ∀ s, "901" ∉ issued s → fresh_ids world_at_end s).
  { intros s Hs channel m [= <-]. exact Hs. }
  assert (Hdemo : reachable ended_demo).
  { apply run_step; [apply started_demo_reachable|]. apply Hfresh.
    vm_compute. intros Hin. discriminate Hin. }
  apply (snapshots_kept ended_demo _ "900" _ Hdemo).
  - apply run_step; [constructor|]. apply Hfresh.
    vm_compute. intros Hin. discriminate Hin.
  - by vm_compute.
Defined.

(** The prefix [start] validates what it records: an entry it creates has a
    winner count of 1 or more, a prize that is not empty, and the mentioned
    channel. *)
Theorem prefix_start_validates (w : world) (p : prefix_message) (s : state)
    (m : snowflake) (g : giveaway) :
  activeGiveaways s !! m = None →
  activeGiveaways (step w (MessageCreate p) s) !! m = Some g →
  (1 ≤ winners g)%Z ∧ prize g ≠ "" ∧ mentioned_channel p = Some (channelId g) ∧
  member_can_manage p = true.
Proof.
  intros Hm Hg.
  destruct (message_kind w p s) as [c d pr n Hstart _ _ Heq|m' _ _ _ Heq|_ _ Heq].
  - rewrite Heq in Hg.
    destruct (start_only_creates w c d pr n s m Hm) as [Hsend Hreact]; [eauto|].
    rewrite (start_creates w c d pr n s m Hsend Hreact) in Hg. simpl in Hg.
    rewrite lookup_insert_eq in Hg. injection Hg as <-. simpl.
    destruct Hstart as (_ & _ & _ & Hperm & Hch & _ & _ & _ & Hne & _ & Hcount).
    done.
  - rewrite Heq in Hg. apply lookup_delete_Some in Hg as [_ Hg]. congruence.
  - rewrite Heq in Hg. congruence.
Qed.

Lemma prefix_start_validates_witness :
  (1 ≤ 3)%Z ∧ "Gift card" ≠ "" ∧ mentioned_channel prefix_start_demo = Some "c1" ∧
  member_can_manage prefix_start_demo = true.
Proof.
  apply (prefix_start_validates world_at_prefix_start prefix_start_demo initial "900"
           {| channelId := "c1"; prize := "Gift card"; winners := 3; timeout := 0 |});
    by vm_compute.
Defined.

(** With at least as many places as participants everybody wins, each
    once; with no place to give nobody does. *)
Theorem everyone_wins rnd (count : Z) (ps : list snowflake) :
  ((Z.of_nat (length ps) ≤ count)%Z →
   pick_winners rnd count ps ≡ₚ (mention ∘ Some) <$> ps) ∧
  ((count ≤ 0)%Z → pick_winners rnd count ps = []).
Proof.
  unfold pick_winners.
  destruct (draw_chosen (length ps) rnd count 0 ps []) as (chosen & rest & -> & Hperm & Hlen).
  specialize (Hlen (le_n _)). simpl. split.
  - intros Hcount. apply fmap_Permutation. rewrite <- Hperm.
    assert (Hrest : length rest = 0).
    { apply Permutation_length in Hperm. rewrite length_app in Hperm. lia. }
    destruct rest; [|done]. by rewrite app_nil_r.
  - intros Hcount. destruct chosen; [done|]. simpl in Hlen. lia.
Qed.

Lemma everyone_wins_witness :
  pick_winners (λ _, Random 1 1) 5 ["101"; "102"] ≡ₚ (mention ∘ Some) <$> ["101"; "102"].
Proof.
  apply (everyone_wins (λ _, Random 1 1) 5 ["101"; "102"]). simpl. lia.
Defined.

(** Nothing a member without the Manage Messages permission sends, by
    prefix or by slash command, changes the state of the bot. *)
Theorem without_permission_nothing_changes (w : world) (s : state) :
  (∀ p, member_can_manage p = false → step w (MessageCreate p) s = s) ∧
  (∀ i, can_manage i = false → step w (InteractionCreate i) s = s).
Proof.
  split.
  - intros p Hperm. unfold step. simpl. unfold on_message, replied.
    rewrite Hperm. simpl. by repeat case_match.
  - intros i Hperm. unfold step. simpl. unfold on_interaction, replied.
    rewrite Hperm. simpl. by repeat case_match.
Qed.

Lemma without_permission_nothing_changes_witness :
  step world_at_end (slash_end false "900" "c1") started_demo = started_demo.
Proof.
  by apply (proj2 (without_permission_nothing_changes world_at_end started_demo)).
Defined.

End GiveawayFacts.

(** ** The music bot *)

Module MusicFacts.

Import Music.

(** *** The shuffle *)

Lemma swap_Permutation (l : list track) (i j : nat) : swap l i j ≡ₚ l.
Proof.
  unfold swap. destruct (l !! i) as [x|] eqn:Hi; [|done].
  destruct (l !! j) as [y|] eqn:Hj; [|done].
  by apply Permutation_insert_swap.
Qed.

(** The Fisher–Yates loop rearranges the array and loses nothing. *)
Lemma fisher_yates_Permutation rnd (k i : nat) (l : list track) :
  fisher_yates rnd k i l ≡ₚ l.
Proof.
  revert k l. induction i as [|i IH]; intros k l; simpl; [done|].
  by rewrite IH, swap_Permutation.
Qed.

Lemma fisher_yates_length rnd (k i : nat) (l : list track) :
  length (fisher_yates rnd k i l) = length l.
Proof. by rewrite fisher_yates_Permutation. Qed.

(** When the library's shuffle rearranges the queue and no queued track
    has the uri of the current one, the playing slot and the queue hold
    after the shuffle what they held before. *)
Lemma shuffle_keeps_tracks (w : world) (currentSong : track) (p : player) :
  current p = Some currentSong →
  queue_shuffle w (tracks p) ≡ₚ tracks p →
  (∀ t, t ∈ tracks p → uri t ≠ uri currentSong) →
  after_shuffle w currentSong p ≡ₚ currentSong :: tracks p.
Proof.
  intros Hcur Hlib Huri. unfold after_shuffle, shuffle_all.
  set (all := fisher_yates _ _ _ _).
  assert (Hall : all ≡ₚ currentSong :: tracks p).
  { unfold all. by rewrite fisher_yates_Permutation, Hlib. }
  destruct all as [|first rest] eqn:Heq.
  { by apply Permutation_nil_cons in Hall. }
  simpl. destruct (bool_decide (uri first ≠ uri currentSong)) eqn:Hdec.
  - rewrite bool_decide_true by (by repeat constructor). simpl. by rewrite drop_0.
  - apply bool_decide_eq_false in Hdec as Hfirst.
    rewrite bool_decide_false.
    2:{ intros Hin. repeat (apply elem_of_cons in Hin as [[=]|Hin]).
        by apply elem_of_nil in Hin. }
    simpl. rewrite Hcur, drop_0. simpl.
    assert (Hin : first ∈ currentSong :: tracks p).
    { rewrite <- Hall. by left. }
    apply elem_of_cons in Hin as [Hsame|Hin]; [by rewrite Hsame in Hall|].
    apply Huri in Hin. apply dec_stable in Hfirst. congruence.
Qed.

(** C7 at the failing input: the song is playing, its twin (same uri,
    another requester) is queued, and the loop's one draw is below one
    half.  The twin comes first, its uri equals the current one, nothing is
    skipped: the queue now holds the playing song again and the twin is
    gone. *)
Theorem shuffle_drops_same_uri_track :
  fisher_yates (random calm) 0 1 [song; twin] = [twin; song] ∧
  players (after (on_button calm (press "shuffle" "1")
                    (session (player_of (Some song) [twin] true)))) !! "g1"
  = Some (player_of (Some song) [song] true) ∧
  after_shuffle calm song (player_of (Some song) [twin] true) = [song; song] ∧
  ¬ (after_shuffle calm song (player_of (Some song) [twin] true)
     ≡ₚ song :: tracks (player_of (Some song) [twin] true)).
Proof.
  split; [by vm_compute|]. split; [by vm_compute|]. split; [by vm_compute|].
  intros Hperm.
  assert (Hin : twin ∈ after_shuffle calm song (player_of (Some song) [twin] true)).
  { rewrite Hperm. simpl. apply elem_of_cons. right. by left. }
  vm_compute in Hin.
  repeat (apply elem_of_cons in Hin as [[=]|Hin]). by apply elem_of_nil in Hin.
Qed.

(** *** The control buttons *)

Lemma on_button_control (w : world) (b : button) (s : state) (p : player) :
  players s !! guild b = Some p →
  customId b ∈ ["pauseresume"; "skip"; "replay"; "shuffle"; "stop"] →
  customId b = "stop" ∨ in_voice b p →
  on_button w b s = control w b p s.
Proof.
  intros Hp Hid Hvoice. unfold on_button. rewrite Hp.
  assert (Hvoice' :
    bool_decide (member_voice b = None ∨ member_voice b ≠ voiceId p)
    && negb (String.eqb (customId b) "stop") = false).
  { destruct Hvoice as [->|(channel & Hm & Hv)]; [by rewrite andb_false_r|].
    rewrite bool_decide_false; [done|]. rewrite Hm, Hv. by intros [|]. }
  rewrite Hvoice'.
  repeat (apply elem_of_cons in Hid as [->|Hid]); try done.
  by apply elem_of_nil in Hid.
Qed.


Lemma other_requester_false (t : track) (b : button) :
  user b = requester t → other_requester (Some t) b = false.
Proof. intros Heq. simpl. by rewrite Heq, String.eqb_refl. Qed.




(** *** Autoplay *)

Lemma genre_drawn (r : random_value) :
  ∃ genre, genres !! random_below r 11 = Some genre ∧ genre ∈ genres.
Proof.
  destruct (lookup_lt_is_Some_2 genres (random_below r 11)) as [genre Hgenre].
  { apply (random_below_lt r 11). lia. }
  exists genre. split; [done|]. by eapply list_elem_of_lookup_2.
Qed.

(** C9.  When the queue runs empty in a guild with autoplay on and a
    [previous] list, the handler draws one of the eleven genres, searches
    for it, and appends to the queue the first five tracks at most of the
    shuffled result (nothing when the search fails or finds nothing); with
    autoplay off it neither searches nor appends. *)
Theorem autoplay_on_empty (w : world) (p : player) (s : state) :
  length genres = 11 ∧
  (autoplay_has (guildId p) s = true → is_Some (previous p) →
   ∃ genre p',
     genres !! random_below (random w 0) 11 = Some genre ∧
     Search genre (last_requester p) ∈ calls (on_playerEmpty w p s) ∧
     players (after (on_playerEmpty w p s)) !! guildId p = Some p' ∧
     (∀ t more, search w genre = Returned (Some (t :: more)) →
        QueueAdd (take 5 (sort_random w (t :: more))) ∈ calls (on_playerEmpty w p s) ∧
        tracks p' = tracks p ++ take 5 (sort_random w (t :: more)) ∧
        length (take 5 (sort_random w (t :: more))) ≤ 5 ∧
        (sort_random w (t :: more) ≡ₚ t :: more →
         take 5 (sort_random w (t :: more)) ⊆ t :: more)) ∧
     (search w genre = Threw ∨ search w genre = Returned None ∨
      search w genre = Returned (Some []) →
        tracks p' = tracks p ∧
        ∀ added, QueueAdd added ∉ calls (on_playerEmpty w p s))) ∧
  (autoplay_has (guildId p) s = false →
   (∀ query by_user, Search query by_user ∉ calls (on_playerEmpty w p s)) ∧
   (∀ added, QueueAdd added ∉ calls (on_playerEmpty w p s)) ∧
   ∃ p', players (after (on_playerEmpty w p s)) !! guildId p = Some p' ∧
         tracks p' = tracks p).
Proof.
  split; [done|]. split.
  - intros Hon Hprev.
    destruct (genre_drawn (random w 0)) as (genre & Hgenre & _).
    unfold on_playerEmpty, autoplay_block.
    rewrite Hon, (bool_decide_true _ Hprev). simpl.
    change (length genres) with 11. rewrite Hgenre. simpl.
    destruct (search w genre) as [[[|t more]|]|] eqn:Hsearch.
    + eexists genre, _. split; [done|].
      destruct (bool_decide _), (text_channel w); simpl;
        (split; [in_list|]); (split; [apply lookup_insert_eq|]);
        (split; [intros ???; congruence|]); intros _; (split; [done|]);
        intros added; not_in_list.
    + eexists genre, _. split; [done|].
      simpl. destruct (negb (playing p) && negb (paused p)), (play_ok w),
        (text_channel w); simpl;
        repeat match goal with
               | |- context [bool_decide ?P] => destruct (bool_decide P); simpl
               end;
        (split; [in_list|]); (split; [apply lookup_insert_eq|]);
        (split; [|intros [|[|]]; congruence]);
        intros t' more' Hfound; rewrite Hsearch in Hfound; simplify_eq;
        (split; [in_list|]); (split; [done|]);
        (split; [rewrite length_take; lia|]);
        intros Hperm x Hx%subseteq_take; by rewrite <- Hperm.
    + eexists genre, _. split; [done|].
      destruct (bool_decide _), (text_channel w); simpl;
        (split; [in_list|]); (split; [apply lookup_insert_eq|]);
        (split; [intros ???; congruence|]); intros _; (split; [done|]);
        intros added; not_in_list.
    + eexists genre, _. split; [done|].
      destruct (bool_decide _), (text_channel w); simpl;
        (split; [in_list|]); (split; [apply lookup_insert_eq|]);
        (split; [intros ???; congruence|]); intros _; (split; [done|]);
        intros added; not_in_list.
  - intros Hoff. unfold on_playerEmpty, autoplay_block. rewrite Hoff. simpl.
    destruct (bool_decide _), (text_channel w); simpl;
      (split; [intros ??; not_in_list|]); (split; [intros ?; not_in_list|]);
      eexists; (split; [apply lookup_insert_eq|done]).
Qed.

Lemma autoplay_on_empty_witness :
  ∃ p', players (after (on_playerEmpty finding (player_of None [] false)
                          (autoplaying (player_of None [] false)))) !! "g1" = Some p' ∧
        tracks p' = take 5 (reverse seven) ∧ length (tracks p') ≤ 5.
Proof.
  destruct (autoplay_on_empty finding (player_of None [] false)
              (autoplaying (player_of None [] false))) as (_ & Hon & _).
  destruct Hon as (genre & p' & _ & _ & Hp' & Hfound & _);
    [by vm_compute|by eexists|].
  exists p'. split; [exact Hp'|].
  destruct (Hfound (hd song seven) (tl seven) eq_refl) as (_ & Htracks & Hlen & _).
  rewrite Htracks. split; [done|]. exact Hlen.
Defined.

(** *** The inactivity timer *)

Lemma inactivity_check_cases (g channel : snowflake) (s : state) :
  (looks_idle g s ∧
   calls (inactivity_check g channel s) = [PlayerDestroy; ChannelSend channel "Channel Left"] ∧
   after (inactivity_check g channel s) = drop_player g s) ∨
  (¬ looks_idle g s ∧
   calls (inactivity_check g channel s) = [] ∧ after (inactivity_check g channel s) = s).
Proof.
  unfold inactivity_check, looks_idle.
  destruct (players s !! g) as [p|] eqn:Hp; [|right; split; [by intros (? & ? & _)|done]].
  destruct (_ && _) eqn:Hcond.
  - left. split; [|done]. exists p.
    apply andb_true_iff in Hcond as [[Hq Hplay]%andb_true_iff H247].
    split; [done|]. split; [|split].
    + apply orb_true_iff in Hq as [Hq|Hq].
      * left. apply negb_true_iff, bool_decide_eq_false in Hq.
        destruct (current p); [destruct Hq; eauto|done].
      * right. apply bool_decide_eq_true in Hq. by destruct (tracks p).
    + by apply negb_true_iff in Hplay.
    + apply negb_true_iff, bool_decide_eq_false in H247.
      destruct (twentyFourSeven s !! g); [destruct H247; eauto|done].
  - right. split; [|done]. intros (p' & [= <-] & Hqueue & Hplay & H247).
    rewrite Hplay, H247 in Hcond.
    rewrite (bool_decide_false (is_Some None)) in Hcond by (by intros []).
    destruct Hqueue as [Hq|Hq]; rewrite Hq in Hcond; simpl in Hcond; [done|].
    by rewrite orb_true_r in Hcond.
Qed.

(** C3 at the failing input.  After the queue of one guild ran empty
    twice, two inactivity timers of that guild are pending and only the
    second is in [inactivityTimeouts]; [playerStart] clears that one and
    leaves the first pending; the first fires 180000 ms after the first
    [playerEmpty] and destroys the player, paused by then, although
    playback had started again before. *)
Theorem second_empty_orphans_timer :
  size (pending_checks "g1" (play initial twice_empty)) = 2 ∧
  inactivityTimeouts (play initial twice_empty) !! "g1" = Some 1 ∧
  calls (handle calm (PlayerStart "g1") (play initial twice_empty)) = [ClearTimer 1] ∧
  inactivityTimeouts (play initial then_started) !! "g1" = None ∧
  timers (play initial then_started) !! 0
  = Some {| due := 180000; delay := 180000; run := InactivityCheck "g1" "c1" |} ∧
  clock (play initial then_started) = 180000%Z ∧
  calls (handle calm (TimerFired 0) (play initial then_started))
  = [PlayerDestroy; ChannelSend "c1" "Channel Left"] ∧
  players (play initial then_started) !! "g1" = Some (player_of (Some song) [] false) ∧
  players (step calm (play initial then_started) (TimerFired 0)) !! "g1" = None.
Proof. repeat split; by vm_compute. Qed.

(** What the timer of a guild does when it fires, and when: not before it
    is due; the player is destroyed exactly when it is there, has no
    current track or no queued track, is not playing, and the guild is not
    in [twentyFourSeven]; never while the guild is in that map. *)
Theorem inactivity_timer_guarded (h : timer_id) (s : state) (t : timer)
    (g channel : snowflake) :
  timers s !! h = Some t → run t = InactivityCheck g channel →
  (PlayerDestroy ∈ calls (on_timer h s) ↔ (due t ≤ clock s)%Z ∧ looks_idle g s) ∧
  (PlayerDestroy ∈ calls (on_timer h s) →
   players (after (on_timer h s)) = delete g (players s)) ∧
  (PlayerDestroy ∉ calls (on_timer h s) → players (after (on_timer h s)) = players s) ∧
  (is_Some (twentyFourSeven s !! g) → PlayerDestroy ∉ calls (on_timer h s)).
Proof.
  intros Ht Hrun. unfold on_timer. rewrite Ht, Hrun.
  assert (Hidle : looks_idle g (clear_timeout h s) ↔ looks_idle g s) by done.
  case_bool_decide as Hdue.
  - destruct (inactivity_check_cases g channel (clear_timeout h s))
      as [(Hi%Hidle & -> & ->)|(Hi & -> & ->)].
    + repeat split; try done.
      * by left.
      * intros Hnot. destruct Hnot. by left.
      * intros H247 _. destruct Hi as (p & _ & _ & _ & Hnone).
        simpl in Hnone. rewrite Hnone in H247. by destruct H247.
    + repeat split; try done.
      * by apply elem_of_nil in H.
      * intros [_ ?]. destruct Hi. by apply Hidle.
      * by intros ?%elem_of_nil.
      * by intros _ ?%elem_of_nil.
  - simpl. repeat split; try done.
    + by apply elem_of_nil in H.
    + by apply elem_of_nil in H.
    + by intros [? _].
    + by intros ?%elem_of_nil.
    + by intros _ ?%elem_of_nil.
Qed.

Lemma inactivity_timer_guarded_witness :
  PlayerDestroy ∈ calls (on_timer 0 (play initial then_started)) ↔
  (180000 ≤ clock (play initial then_started))%Z ∧
  looks_idle "g1" (play initial then_started).
Proof.
  apply (inactivity_timer_guarded 0 (play initial then_started)
           {| due := 180000; delay := 180000; run := InactivityCheck "g1" "c1" |}
           "g1" "c1"); by vm_compute.
Defined.

(** When the queue runs empty and autoplay does not carry on, the guild is
    not in [twentyFourSeven] and the text channel is known, the handler
    sets one timer of 180000 ms and records it for the guild; with the
    guild in [twentyFourSeven] it sets none. *)
Theorem playerEmpty_sets_timer (w : world) (p : player) (s : state) :
  (autoplay_block w p s).1.1 ≠ AutoplayContinues →
  (twentyFourSeven s !! guildId p = None → text_channel w = true →
   timers (after (on_playerEmpty w p s)) !! next_timer s
   = Some {| due := clock s + 180000; delay := 180000;
             run := InactivityCheck (guildId p) (textId p) |} ∧
   inactivityTimeouts (after (on_playerEmpty w p s)) !! guildId p = Some (next_timer s)) ∧
  (is_Some (twentyFourSeven s !! guildId p) →
   timers (after (on_playerEmpty w p s)) = timers s ∧
   inactivityTimeouts (after (on_playerEmpty w p s)) = inactivityTimeouts s).
Proof.
  intros Hend. unfold on_playerEmpty.
  destruct (autoplay_block w p s) as [[ending asked] p']. simpl in Hend. split.
  - intros Hnone ->. simpl. rewrite Hnone.
    rewrite bool_decide_false by (by intros []).
    destruct ending; try done; simpl; by rewrite !lookup_insert_eq.
  - intros H247. simpl. rewrite (bool_decide_true _ H247).
    by destruct ending.
Qed.

Lemma playerEmpty_sets_timer_witness :
  timers (after (on_playerEmpty calm (player_of None [] false)
                   (session (player_of None [] false)))) !! 0
  = Some {| due := 180000; delay := 180000; run := InactivityCheck "g1" "c1" |} ∧
  inactivityTimeouts (after (on_playerEmpty calm (player_of None [] false)
                               (session (player_of None [] false)))) !! "g1"
  = Some 0.
Proof.
  apply (playerEmpty_sets_timer calm (player_of None [] false)
           (session (player_of None [] false))); by vm_compute.
Defined.

(** [playerStart] clears the timer recorded for the guild and removes the
    record. *)
Theorem playerStart_clears_timer (g : snowflake) (s : state) (h : timer_id) :
  inactivityTimeouts s !! g = Some h →
  calls (on_playerStart g s) = [ClearTimer h] ∧
  timers (after (on_playerStart g s)) !! h = None ∧
  inactivityTimeouts (after (on_playerStart g s)) !! g = None.
Proof.
  intros Hh. unfold on_playerStart. rewrite Hh. simpl.
  by rewrite !lookup_delete_eq.
Qed.

Lemma playerStart_clears_timer_witness :
  calls (on_playerStart "g1" (play initial twice_empty)) = [ClearTimer 1] ∧
  timers (after (on_playerStart "g1" (play initial twice_empty))) !! 1 = None ∧
  inactivityTimeouts (after (on_playerStart "g1" (play initial twice_empty))) !! "g1"
  = None.
Proof.
  apply (playerStart_clears_timer "g1" (play initial twice_empty) 1). by vm_compute.
Defined.

(** The loop of the shuffle button rearranges its array: nothing is lost
    and nothing is added. *)
Theorem fisher_yates_permutes rnd (l : list track) :
  fisher_yates rnd 0 (length l - 1) l ≡ₚ l ∧
  length (fisher_yates rnd 0 (length l - 1) l) = length l.
Proof. split; [apply fisher_yates_Permutation|apply fisher_yates_length]. Qed.

(** The shuffle keeps the tracks when no queued track has the uri of the
    current one (and the library's own shuffle keeps them). *)
Theorem shuffle_keeps_distinct_uris (w : world) (currentSong : track) (p : player) :
  current p = Some currentSong →
  queue_shuffle w (tracks p) ≡ₚ tracks p →
  (∀ t, t ∈ tracks p → uri t ≠ uri currentSong) →
  after_shuffle w currentSong p ≡ₚ currentSong :: tracks p.
Proof. apply shuffle_keeps_tracks. Qed.

Lemma shuffle_keeps_distinct_uris_witness :
  after_shuffle calm song (player_of (Some song) [other] true) ≡ₚ [song; other].
Proof.
  apply (shuffle_keeps_distinct_uris calm song (player_of (Some song) [other] true));
    [done|done|].
  intros t Ht. apply elem_of_cons in Ht as [->|Ht]; [done|].
  by apply elem_of_nil in Ht.
Defined.

(** *** Further properties of the button handler *)

Lemma control_effect (w : world) (b : button) (p : player) (s : state) :
  button_effect (guild b) s (after (control w b p s)).
Proof.
  unfold control.
  destruct (String.eqb (customId b) "pause").
  { destruct (other_requester _ _); constructor. }
  destruct (String.eqb (customId b) "resume").
  { destruct (other_requester _ _); constructor. }
  destruct (String.eqb (customId b) "pauseresume"); [constructor|].
  destruct (String.eqb (customId b) "skip").
  { destruct (other_requester _ _); constructor. }
  destruct (String.eqb (customId b) "replay").
  { destruct (current p) as [t|]; [|constructor].
    destruct (other_requester _ _); [constructor|].
    apply (effect_replay (guild b) s (pause true p)). }
  destruct (String.eqb (customId b) "shuffle").
  { destruct (current p) as [t|]; [|constructor].
    destruct (other_requester _ _); [constructor|].
    case_bool_decide; [constructor|].
    destruct (shuffle_all w t p). constructor. }
  destruct (String.eqb (customId b) "stop"); [|constructor].
  destruct (current p) as [t|]; [|constructor].
  destruct (other_requester _ _); [constructor|].
  cbn [after]. destruct (destroyed p); constructor.
Qed.

Lemma on_button_effect (w : world) (b : button) (s : state) :
  button_effect (guild b) s (after (on_button w b s)).
Proof.
  unfold on_button.
  destruct (String.eqb (customId b) "help"); [constructor|].
  destruct (String.eqb (customId b) "play"); [constructor|].
  destruct (String.eqb (customId b) "247toggle").
  { destruct (member_voice b); [|constructor]. case_bool_decide; constructor. }
  destruct (String.eqb (customId b) "leave").
  { destruct (players s !! guild b); constructor. }
  case_bool_decide; [|constructor].
  destruct (players s !! guild b) as [p|]; [|constructor].
  destruct (_ && _); [constructor|]. apply control_effect.
Qed.

Lemma on_button_toggle (w : world) (b : button) (s : state) :
  customId b = "247toggle" →
  on_button w b s =
    match member_voice b with
    | None => answer "You must be in a voice channel to toggle 24/7 mode!" s
    | Some channel =>
        if bool_decide (is_Some (twentyFourSeven s !! guild b)) then
          answer "24/7 mode has been disabled. I will disconnect after inactivity."
                 (set_twentyFourSeven (delete (guild b) (twentyFourSeven s)) s)
        else
          answer "24/7 mode has been enabled. I will stay in the voice channel indefinitely."
                 (set_twentyFourSeven (<[guild b := channel]> (twentyFourSeven s)) s)
    end.
Proof. intros Hid. unfold on_button. by rewrite Hid. Qed.

(** The 24/7 button switches the mode of its own guild only, asks nothing
    of the libraries, and does nothing for a member outside every voice
    channel; it records the member's channel when it switches the mode on,
    and two presses on a guild that had the mode off leave the state as it
    was. *)
Theorem toggle_247 (w : world) (b : button) (s : state) :
  customId b = "247toggle" →
  calls (on_button w b s) = [] ∧
  (∀ g, g ≠ guild b →
     twentyFourSeven (after (on_button w b s)) !! g = twentyFourSeven s !! g) ∧
  (member_voice b = None → after (on_button w b s) = s) ∧
  (∀ channel, member_voice b = Some channel →
     (twentyFourSeven s !! guild b = None →
        twentyFourSeven (after (on_button w b s)) !! guild b = Some channel) ∧
     (is_Some (twentyFourSeven s !! guild b) →
        twentyFourSeven (after (on_button w b s)) !! guild b = None) ∧
     (∀ w' b', customId b' = "247toggle" → guild b' = guild b →
        is_Some (member_voice b') → twentyFourSeven s !! guild b = None →
        after (on_button w' b' (after (on_button w b s))) = s)).
Proof.
  intros Hid. rewrite (on_button_toggle w b s Hid).
  destruct (member_voice b) as [channel|] eqn:Hvoice.
  - case_bool_decide as Hon; cbn [calls after answer].
    + split; [done|]. split.
      { intros g Hg. simpl. by rewrite lookup_delete_ne. }
      split; [done|]. intros ? [= <-]. split; [|split].
      * intros Hnone. rewrite Hnone in Hon. by destruct Hon.
      * intros _. simpl. apply lookup_delete_eq.
      * intros w' b' _ _ _ Hnone. rewrite Hnone in Hon. by destruct Hon.
    + split; [done|]. split.
      { intros g Hg. simpl. by rewrite lookup_insert_ne. }
      split; [done|]. intros ? [= <-]. split; [|split].
      * intros _. simpl. apply lookup_insert_eq.
      * intros Hsome. by destruct Hon.
      * intros w' b' Hid' Hguild [channel' Hvoice'] Hnone.
        rewrite (on_button_toggle w' b' _ Hid'), Hvoice', Hguild.
        cbn [twentyFourSeven set_twentyFourSeven].
        rewrite lookup_insert_eq, bool_decide_true by eauto.
        cbn [after answer]. destruct s. unfold set_twentyFourSeven. simpl in *.
        f_equal. by apply delete_insert_id.
  - split; [done|]. split; [done|]. split; [done|]. by intros ? [=].
Qed.

Lemma toggle_247_witness :
  twentyFourSeven (after (on_button calm (press "247toggle" "2") listening)) !! "g1"
  = Some "v1" ∧
  after (on_button calm (press "247toggle" "1")
           (after (on_button calm (press "247toggle" "2") listening)))
  = listening.
Proof.
  destruct (toggle_247 calm (press "247toggle" "2") listening eq_refl)
    as (_ & _ & _ & Hpress).
  destruct (Hpress "v1" eq_refl) as (Hon & _ & Htwice). split.
  - by apply Hon.
  - apply Htwice; [done|done|by eexists|done].
Defined.

(** A button pressed in one guild leaves every other guild's player and
    24/7 entry as they were, and it never touches the recorded inactivity
    timers, the autoplay set or the clock. *)
Theorem button_stays_in_guild (w : world) (b : button) (s : state) (g : snowflake) :
  g ≠ guild b →
  players (after (on_button w b s)) !! g = players s !! g ∧
  twentyFourSeven (after (on_button w b s)) !! g = twentyFourSeven s !! g ∧
  inactivityTimeouts (after (on_button w b s)) = inactivityTimeouts s ∧
  autoplay (after (on_button w b s)) = autoplay s ∧
  clock (after (on_button w b s)) = clock s.
Proof.
  intros Hg. destruct (on_button_effect w b s); simpl;
    rewrite ?lookup_insert_ne, ?lookup_delete_ne by done; done.
Qed.

Lemma button_stays_in_guild_witness :
  players (after (on_button calm (press "leave" "2") listening)) !! "g2"
  = players listening !! "g2" ∧
  twentyFourSeven (after (on_button calm (press "leave" "2") listening)) !! "g2"
  = twentyFourSeven listening !! "g2" ∧
  inactivityTimeouts (after (on_button calm (press "leave" "2") listening))
  = inactivityTimeouts listening ∧
  autoplay (after (on_button calm (press "leave" "2") listening)) = autoplay listening ∧
  clock (after (on_button calm (press "leave" "2") listening)) = clock listening.
Proof. by apply (button_stays_in_guild calm (press "leave" "2") listening "g2"). Defined.

(** The replay button, pressed by the requester from the player's voice
    channel, pauses the player and sets a timer of 500 ms; fired before
    that time has passed the timer does nothing, fired after it the timer
    resumes the player, once. *)
Theorem replay_resumes (w : world) (b : button) (s : state) (p : player) (t : track)
    (ms : Z) :
  players s !! guild b = Some p → current p = Some t → customId b = "replay" →
  in_voice b p → user b = requester t →
  players (after (on_button w b s)) !! guild b = Some (pause true p) ∧
  timers (after (on_button w b s)) !! next_timer s
  = Some {| due := clock s + 500; delay := 500; run := Unpause (guild b) |} ∧
  ((ms < 500)%Z →
     calls (on_timer (next_timer s) (advance ms (after (on_button w b s)))) = [] ∧
     after (on_timer (next_timer s) (advance ms (after (on_button w b s))))
     = advance ms (after (on_button w b s))) ∧
  ((500 ≤ ms)%Z →
     calls (on_timer (next_timer s) (advance ms (after (on_button w b s))))
     = [PlayerPause false] ∧
     players (after (on_timer (next_timer s) (advance ms (after (on_button w b s)))))
       !! guild b = Some (pause false p) ∧
     timers (after (on_timer (next_timer s) (advance ms (after (on_button w b s)))))
       !! next_timer s = None).
Proof.
  intros Hp Ht Hid Hvoice Huser.
  rewrite (on_button_control w b s p Hp); [|rewrite Hid; in_list|by right].
  unfold control. rewrite Hid, Ht, (other_requester_false t b Huser).
  cbn [String.eqb Ascii.eqb Bool.eqb set_timeout after].
  split; [apply lookup_insert_eq|]. split; [apply lookup_insert_eq|].
  unfold on_timer, advance. cbn [timers clock]. rewrite lookup_insert_eq.
  cbn [due run]. split.
  - intros Hms. rewrite bool_decide_false by lia. done.
  - intros Hms. rewrite bool_decide_true by lia.
    simpl. rewrite lookup_insert_eq. simpl.
    split; [done|]. split; [apply lookup_insert_eq|apply lookup_delete_eq].
Qed.

Lemma replay_resumes_witness :
  calls (on_timer 0 (advance 500 (after (on_button calm (press "replay" "1") listening))))
  = [PlayerPause false] ∧
  players (after (on_timer 0 (advance 500
             (after (on_button calm (press "replay" "1") listening))))) !! "g1"
  = Some (pause false (player_of (Some song) [other] true)) ∧
  timers (after (on_timer 0 (advance 500
            (after (on_button calm (press "replay" "1") listening))))) !! 0 = None.
Proof.
  apply (replay_resumes calm (press "replay" "1") listening
           (player_of (Some song) [other] true) song 500);
    [reflexivity|reflexivity|reflexivity|by exists "v1"|reflexivity|lia].
Defined.

(** The leave button destroys the guild's player whoever presses it and
    from wherever: neither the requester nor the voice channel is looked
    at.  Once it is gone the control buttons and a second leave find no
    player, and a pending inactivity check of the guild, when it fires,
    destroys nothing. *)
Theorem leave_destroys_for_anyone (w : world) (b : button) (s : state) (p : player) :
  customId b = "leave" → players s !! guild b = Some p →
  calls (on_button w b s) = [PlayerDestroy] ∧
  players (after (on_button w b s)) = delete (guild b) (players s) ∧
  timers (after (on_button w b s)) = timers s ∧
  (∀ w' b', guild b' = guild b →
     customId b' ∈ ["pauseresume"; "skip"; "replay"; "shuffle"; "stop"; "leave"] →
     calls (on_button w' b' (after (on_button w b s))) = [] ∧
     after (on_button w' b' (after (on_button w b s))) = after (on_button w b s)) ∧
  (∀ h t channel, timers s !! h = Some t → run t = InactivityCheck (guild b) channel →
     calls (on_timer h (after (on_button w b s))) = []).
Proof.
  intros Hid Hp.
  assert (Hleave : on_button w b s
                   = {| reply := Some "Left the voice channel."; calls := [PlayerDestroy];
                        after := drop_player (guild b) s |}).
  { unfold on_button. by rewrite Hid, Hp. }
  rewrite Hleave. cbn [calls after]. split; [done|]. split; [done|]. split; [done|]. split.
  - intros w' b' Hguild Hid'. unfold on_button. rewrite Hguild.
    cbn [players drop_player]. rewrite lookup_delete_eq.
    repeat (apply elem_of_cons in Hid' as [->|Hid']); try done.
    by apply elem_of_nil in Hid'.
  - intros h t channel Hh Hrun. unfold on_timer. cbn [timers drop_player].
    rewrite Hh, Hrun. case_bool_decide; [|done].
    unfold inactivity_check. cbn [players clear_timeout drop_player].
    by rewrite lookup_delete_eq.
Qed.

Lemma leave_destroys_for_anyone_witness :
  calls (on_button calm (press "leave" "2") listening) = [PlayerDestroy] ∧
  players (after (on_button calm (press "leave" "2") listening))
  = delete "g1" (players listening).
Proof.
  destruct (leave_destroys_for_anyone calm (press "leave" "2") listening
              (player_of (Some song) [other] true) eq_refl eq_refl)
    as (Hcalls & Hplayers & _).
  by split.
Defined.

(** With a player that has no current track: the skip button still calls
    [skip], for any member in the voice channel, while replay, shuffle and
    stop answer that no track is playing, call nothing and change
    nothing. *)
Theorem buttons_without_current_track (w : world) (b : button) (s : state)
    (p : player) :
  players s !! guild b = Some p → current p = None →
  customId b = "stop" ∨ in_voice b p →
  (customId b = "skip" →
     on_button w b s
     = {| reply := Some "Skipped to the next track!"; calls := [PlayerSkip];
          after := s |}) ∧
  (customId b ∈ ["replay"; "shuffle"; "stop"] →
     on_button w b s = answer "No track is currently playing!" s).
Proof.
  intros Hp Hnone Hvoice. split.
  - intros Hid. rewrite (on_button_control w b s p Hp); [|rewrite Hid; in_list|done].
    unfold control. by rewrite Hid, Hnone.
  - intros Hid. rewrite (on_button_control w b s p Hp); [| |done].
    + unfold control. rewrite Hnone.
      repeat (apply elem_of_cons in Hid as [->|Hid]); try done.
      by apply elem_of_nil in Hid.
    + repeat (apply elem_of_cons in Hid as [->|Hid]); try in_list.
      by apply elem_of_nil in Hid.
Qed.

Lemma buttons_without_current_track_witness :
  on_button calm (press "skip" "2") (session (player_of None [other] false))
  = {| reply := Some "Skipped to the next track!"; calls := [PlayerSkip];
       after := session (player_of None [other] false) |}.
Proof.
  apply (buttons_without_current_track calm (press "skip" "2")
           (session (player_of None [other] false)) (player_of None [other] false));
    [reflexivity|reflexivity|right; by exists "v1"|reflexivity].
Defined.

(** *** The timers along a run *)

Lemma initial_timers_wf : timers_wf initial.
Proof. split; intros *; simpl; by rewrite lookup_empty. Qed.

Lemma set_player_wf (g : snowflake) (p : player) (s : state) :
  timers_wf s → timers_wf (set_player g p s).
Proof. intros []. by split. Qed.

Lemma drop_player_wf (g : snowflake) (s : state) :
  timers_wf s → timers_wf (drop_player g s).
Proof. intros []. by split. Qed.

Lemma set_twentyFourSeven_wf (m : gmap snowflake snowflake) (s : state) :
  timers_wf s → timers_wf (set_twentyFourSeven m s).
Proof. intros []. by split. Qed.

Lemma set_timeout_wf (ms : Z) (what : task) (s : state) :
  match what with
  | InactivityCheck _ _ => ms = 180000%Z
  | Unpause _ => ms = 500%Z
  end →
  timers_wf s → timers_wf (set_timeout ms what s).2.
Proof.
  intros Hms Hs. split; simpl.
  - intros h t [[<- <-]|[_ Hh]]%lookup_insert_Some; [lia|].
    pose proof (handles_below s Hs h t Hh). lia.
  - intros h t [[<- <-]|[_ Hh]]%lookup_insert_Some; [done|].
    apply (due_within_delay s Hs h t Hh).
  - intros h t [[<- <-]|[_ Hh]]%lookup_insert_Some; [done|].
    apply (known_delays s Hs h t Hh).
  - intros g h Hg. pose proof (recorded_below s Hs g h Hg). lia.
  - intros g h t Hg Hh. pose proof (recorded_below s Hs g h Hg).
    rewrite lookup_insert_ne in Hh by lia. apply (recorded_checks s Hs g h t Hg Hh).
Qed.

Lemma clear_timeout_wf (h : timer_id) (s : state) :
  timers_wf s → timers_wf (clear_timeout h s).
Proof.
  intros Hs. split; simpl.
  - intros h' t [_ Hh]%lookup_delete_Some. apply (handles_below s Hs h' t Hh).
  - intros h' t [_ Hh]%lookup_delete_Some. apply (due_within_delay s Hs h' t Hh).
  - intros h' t [_ Hh]%lookup_delete_Some. apply (known_delays s Hs h' t Hh).
  - apply (recorded_below s Hs).
  - intros g h' t Hg [_ Hh]%lookup_delete_Some. apply (recorded_checks s Hs g h' t Hg Hh).
Qed.

Lemma record_wf (g : snowflake) (h : timer_id) (s : state) :
  h < next_timer s →
  (∀ t, timers s !! h = Some t → ∃ channel, run t = InactivityCheck g channel) →
  timers_wf s → timers_wf (set_inactivityTimeouts (<[g := h]> (inactivityTimeouts s)) s).
Proof.
  intros Hbelow Hcheck Hs. split; simpl.
  - apply (handles_below s Hs).
  - apply (due_within_delay s Hs).
  - apply (known_delays s Hs).
  - intros g' h' [[<- <-]|[_ Hg]]%lookup_insert_Some; [done|].
    apply (recorded_below s Hs g' h' Hg).
  - intros g' h' t [[<- <-]|[_ Hg]]%lookup_insert_Some Hh; [by apply Hcheck|].
    apply (recorded_checks s Hs g' h' t Hg Hh).
Qed.

Lemma unrecord_wf (g : snowflake) (s : state) :
  timers_wf s → timers_wf (set_inactivityTimeouts (delete g (inactivityTimeouts s)) s).
Proof.
  intros Hs. split; simpl.
  - apply (handles_below s Hs).
  - apply (due_within_delay s Hs).
  - apply (known_delays s Hs).
  - intros g' h' [_ Hg]%lookup_delete_Some. apply (recorded_below s Hs g' h' Hg).
  - intros g' h' t [_ Hg]%lookup_delete_Some Hh.
    apply (recorded_checks s Hs g' h' t Hg Hh).
Qed.

Lemma advance_wf (ms : Z) (s : state) : timers_wf s → timers_wf (advance ms s).
Proof.
  intros Hs. split; simpl.
  - apply (handles_below s Hs).
  - intros h t Hh. pose proof (due_within_delay s Hs h t Hh). lia.
  - apply (known_delays s Hs).
  - apply (recorded_below s Hs).
  - apply (recorded_checks s Hs).
Qed.

Lemma on_button_wf (w : world) (b : button) (s : state) :
  timers_wf s → timers_wf (after (on_button w b s)).
Proof.
  intros Hs. destruct (on_button_effect w b s).
  - done.
  - by apply set_player_wf.
  - by apply drop_player_wf.
  - by apply set_twentyFourSeven_wf.
  - by apply set_twentyFourSeven_wf.
  - apply set_timeout_wf; [done|]. by apply set_player_wf.
Qed.

Lemma on_playerEmpty_wf (w : world) (p : player) (s : state) :
  timers_wf s → timers_wf (after (on_playerEmpty w p s)).
Proof.
  intros Hs. unfold on_playerEmpty.
  destruct (autoplay_block w p s) as [[ending asked] p'].
  pose proof (set_player_wf (guildId p) p' s Hs) as Hs1.
  assert (Hrest :
    timers_wf (after
      (if bool_decide (is_Some (twentyFourSeven (set_player (guildId p) p' s) !! guildId p))
       then {| reply := None;
               calls := (if text_channel w then [ChannelSend (textId p) "Queue Ended"]
                         else []) ++ asked;
               after := set_player (guildId p) p' s |}
       else if text_channel w then
         let '(inactivityTimeout, s2) :=
           set_timeout 180000 (InactivityCheck (guildId p) (textId p))
                       (set_player (guildId p) p' s) in
         {| reply := None;
            calls := (if text_channel w then [ChannelSend (textId p) "Queue Ended"]
                      else []) ++ asked ++
                     [SetTimer 180000 (InactivityCheck (guildId p) (textId p))];
            after := set_inactivityTimeouts
                       (<[guildId p := inactivityTimeout]> (inactivityTimeouts s2)) s2 |}
       else {| reply := None;
               calls := (if text_channel w then [ChannelSend (textId p) "Queue Ended"]
                         else []) ++ asked;
               after := set_player (guildId p) p' s |}))).
  { case_bool_decide; [done|]. destruct (text_channel w); [|done].
    cbn [set_timeout after]. apply record_wf.
    - simpl. lia.
    - simpl. intros t. rewrite lookup_insert_eq. intros [= <-]. by eexists.
    - by apply (set_timeout_wf 180000 (InactivityCheck (guildId p) (textId p))). }
  destruct ending; [exact Hrest|exact Hrest|exact Hs1].
Qed.

Lemma on_playerStart_wf (g : snowflake) (s : state) :
  timers_wf s → timers_wf (after (on_playerStart g s)).
Proof.
  intros Hs. unfold on_playerStart. destruct (inactivityTimeouts s !! g) as [h|]; [|done].
  by apply (unrecord_wf g (clear_timeout h s)), clear_timeout_wf.
Qed.

Lemma on_timer_wf (h : timer_id) (s : state) :
  timers_wf s → timers_wf (after (on_timer h s)).
Proof.
  intros Hs. unfold on_timer. destruct (timers s !! h) as [t|]; [|done].
  case_bool_decide; [|done].
  pose proof (clear_timeout_wf h s Hs) as Hs1.
  destruct (run t) as [g channel|g].
  - unfold inactivity_check. destruct (players _ !! g); [|done].
    destruct (_ && _); [|done]. by apply drop_player_wf.
  - destruct (players _ !! g); [|done]. by apply set_player_wf.
Qed.

Lemma step_wf (w : world) (s : state) (e : event) : timers_wf s → timers_wf (step w s e).
Proof.
  intros Hs. unfold step. destruct e as [g|g|b|h|ms|p]; simpl.
  - destruct (players s !! g); [|done]. by apply on_playerEmpty_wf.
  - by apply on_playerStart_wf.
  - by apply on_button_wf.
  - by apply on_timer_wf.
  - by apply advance_wf.
  - by apply set_player_wf.
Qed.

Lemma play_wf (s : state) (events : list (world * event)) :
  timers_wf s → timers_wf (play s events).
Proof.
  revert s. induction events as [|[w e] events IH]; intros s Hs; [done|].
  simpl. by apply IH, step_wf.
Qed.

(** Whatever happens to the bot from its start, in whatever order: a new
    timer never takes the handle of a pending one; a pending timer is due
    at most its delay from now, the delay being 180000 ms for an
    inactivity check and 500 ms for a replay; and the timer recorded for a
    guild, while it is pending, is an inactivity check of that very
    guild. *)
Theorem timers_well_formed (events : list (world * event)) :
  timers (play initial events) !! next_timer (play initial events) = None ∧
  (∀ h t, timers (play initial events) !! h = Some t →
     (due t ≤ clock (play initial events) + delay t)%Z ∧
     ((∃ g channel, run t = InactivityCheck g channel ∧ delay t = 180000%Z) ∨
      (∃ g, run t = Unpause g ∧ delay t = 500%Z))) ∧
  (∀ g h t, inactivityTimeouts (play initial events) !! g = Some h →
     timers (play initial events) !! h = Some t →
     ∃ channel, run t = InactivityCheck g channel).
Proof.
  pose proof (play_wf initial events initial_timers_wf) as Hs.
  split; [|split].
  - destruct (timers _ !! next_timer _) as [t|] eqn:Hh; [|done].
    pose proof (handles_below _ Hs _ t Hh). lia.
  - intros h t Hh. split; [apply (due_within_delay _ Hs h t Hh)|].
    pose proof (known_delays _ Hs h t Hh) as Hdelay.
    destruct (run t) as [g channel|g]; [left|right]; eauto.
  - apply (recorded_checks _ Hs).
Qed.

(** *** Which button can call what *)

Lemma shuffle_all_calls (w : world) (t : track) (p : player) (c : call) :
  c ∈ (shuffle_all w t p).2 →
  c = QueueShuffle ∨ c = QueueClear ∨ (∃ added, c = QueueAdd added) ∨
  (∃ first, c = QueueInsert first 0) ∨ c = PlayerSkip.
Proof.
  unfold shuffle_all. destruct (_ !! 0) as [first|]; [case_bool_decide|]; simpl;
    intros Hin; repeat (apply elem_of_cons in Hin as [->|Hin]); eauto 6;
    by apply elem_of_nil in Hin.
Qed.

(** The calls a control button can come to, by its id. *)
Lemma control_calls (w : world) (b : button) (p : player) (s : state) (c : call) :
  c ∈ calls (control w b p s) →
  (customId b = "pause" ∧ c = PlayerPause true) ∨
  (customId b = "resume" ∧ c = PlayerPause false) ∨
  (customId b = "skip" ∧ c = PlayerSkip) ∨
  (customId b = "replay" ∧
   c ∈ [PlayerSeek 0; PlayerPause true; SetTimer 500 (Unpause (guild b))]) ∨
  (customId b = "shuffle" ∧
   (c = QueueShuffle ∨ c = QueueClear ∨ (∃ added, c = QueueAdd added) ∨
    (∃ first, c = QueueInsert first 0) ∨ c = PlayerSkip)) ∨
  (customId b = "stop" ∧
   (c = ChannelSend (textId p) "Queue Ended" ∨ c = QueueClear ∨ c = NodeStop ∨
    c = VoiceDisconnect)).
Proof.
  unfold control.
  destruct (String.eqb_spec (customId b) "pause") as [Hid|_].
  { destruct (other_requester _ _); simpl; [by intros ?%elem_of_nil|].
    intros ->%list_elem_of_singleton. by left. }
  destruct (String.eqb_spec (customId b) "resume") as [Hid|_].
  { destruct (other_requester _ _); simpl; [by intros ?%elem_of_nil|].
    intros ->%list_elem_of_singleton. right. by left. }
  destruct (String.eqb_spec (customId b) "pauseresume") as [Hid|_].
  { by intros ?%elem_of_nil. }
  destruct (String.eqb_spec (customId b) "skip") as [Hid|_].
  { destruct (other_requester _ _); simpl; [by intros ?%elem_of_nil|].
    intros ->%list_elem_of_singleton. do 2 right. by left. }
  destruct (String.eqb_spec (customId b) "replay") as [Hid|_].
  { destruct (current p) as [t|]; [|by intros ?%elem_of_nil].
    destruct (other_requester _ _); [by intros ?%elem_of_nil|].
    intros Hin. do 3 right. left. split; [done|]. exact Hin. }
  destruct (String.eqb_spec (customId b) "shuffle") as [Hid|_].
  { destruct (current p) as [t|]; [|by intros ?%elem_of_nil].
    destruct (other_requester _ _); [by intros ?%elem_of_nil|].
    case_bool_decide; [by intros ?%elem_of_nil|].
    pose proof (shuffle_all_calls w t p c) as Hcalls.
    destruct (shuffle_all w t p) as [p' made]. intros Hin. do 4 right. left.
    split; [done|]. by apply Hcalls. }
  destruct (String.eqb_spec (customId b) "stop") as [Hid|_];
    [|by intros ?%elem_of_nil].
  destruct (current p) as [t|]; [|by intros ?%elem_of_nil].
  destruct (other_requester _ _); [by intros ?%elem_of_nil|].
  cbn [calls]. intros Hin. do 5 right. split; [done|].
  apply elem_of_app in Hin as [Hin|Hin].
  - destruct (text_channel w); [|by apply elem_of_nil in Hin].
    apply list_elem_of_singleton in Hin. by left.
  - destruct (destroyed p); [by apply elem_of_nil in Hin|].
    apply elem_of_app in Hin as [Hin|Hin].
    { apply list_elem_of_singleton in Hin. right. by left. }
    apply elem_of_app in Hin as [Hin|Hin].
    + destruct (node_send p); [|by apply elem_of_nil in Hin].
      apply list_elem_of_singleton in Hin. do 2 right. by left.
    + destruct (_ && _); [|by apply elem_of_nil in Hin].
      apply list_elem_of_singleton in Hin. by do 3 right.
Qed.

Lemma on_button_calls (w : world) (b : button) (s : state) (c : call) :
  c ∈ calls (on_button w b s) →
  (customId b = "leave" ∧ c = PlayerDestroy) ∨
  (customId b ∈ ["pauseresume"; "skip"; "replay"; "shuffle"; "stop"] ∧
   ∃ p, players s !! guild b = Some p ∧ c ∈ calls (control w b p s)).
Proof.
  unfold on_button.
  destruct (String.eqb (customId b) "help"); [by intros ?%elem_of_nil|].
  destruct (String.eqb (customId b) "play"); [by intros ?%elem_of_nil|].
  destruct (String.eqb (customId b) "247toggle").
  { destruct (member_voice b); [case_bool_decide|]; by intros ?%elem_of_nil. }
  destruct (String.eqb_spec (customId b) "leave") as [Hid|_].
  { destruct (players s !! guild b); [|by intros ?%elem_of_nil].
    intros ->%list_elem_of_singleton. by left. }
  case_bool_decide as Hid; [|by intros ?%elem_of_nil].
  destruct (players s !! guild b) as [p|]; [|by intros ?%elem_of_nil].
  destruct (_ && _); [by intros ?%elem_of_nil|].
  intros Hin. right. split; [done|]. by exists p.
Qed.

(** What the buttons never do.  Of all the buttons only leave makes the
    handler destroy the player; only skip, and shuffle when it moves another
    track to the front, make it skip; only replay sets a timer, of 500 ms,
    and pauses; and no button resumes a player: the [pause] and [resume]
    cases of the switch are never reached. *)
Theorem button_call_table (w : world) (b : button) (s : state) :
  (PlayerDestroy ∈ calls (on_button w b s) → customId b = "leave") ∧
  (PlayerSkip ∈ calls (on_button w b s) → customId b = "skip" ∨ customId b = "shuffle") ∧
  (∀ ms what, SetTimer ms what ∈ calls (on_button w b s) →
     customId b = "replay" ∧ ms = 500%Z ∧ what = Unpause (guild b)) ∧
  (∀ on, PlayerPause on ∈ calls (on_button w b s) → customId b = "replay" ∧ on = true) ∧
  (customId b = "pause" ∨ customId b = "resume" →
     on_button w b s = {| reply := None; calls := []; after := s |}).
Proof.
  assert (Htable : ∀ c, c ∈ calls (on_button w b s) →
    (customId b = "leave" ∧ c = PlayerDestroy) ∨
    (customId b = "skip" ∧ c = PlayerSkip) ∨
    (customId b = "replay" ∧
     c ∈ [PlayerSeek 0; PlayerPause true; SetTimer 500 (Unpause (guild b))]) ∨
    (customId b = "shuffle" ∧
     (c = QueueShuffle ∨ c = QueueClear ∨ (∃ added, c = QueueAdd added) ∨
      (∃ first, c = QueueInsert first 0) ∨ c = PlayerSkip)) ∨
    (customId b = "stop" ∧
     ((∃ channel, c = ChannelSend channel "Queue Ended") ∨ c = QueueClear ∨
      c = NodeStop ∨ c = VoiceDisconnect))).
  { intros c [Hleave|(Hid & p & _ & Hin)]%on_button_calls; [by left|].
    apply control_calls in Hin as [[Heq _]|[[Heq _]|[?|[?|[?|[? Hstop]]]]]].
    - rewrite Heq in Hid. exfalso. revert Hid. not_in_list.
    - rewrite Heq in Hid. exfalso. revert Hid. not_in_list.
    - right. by left.
    - do 2 right. by left.
    - do 3 right. by left.
    - do 4 right. split; [done|]. destruct Hstop as [->|[->|[->| ->]]]; eauto. }
  split; [|split; [|split; [|split]]].
  - intros Hin%Htable.
    repeat match goal with
           | H : _ ∨ _ |- _ => destruct H
           | H : _ ∧ _ |- _ => destruct H
           | H : ∃ _, _ |- _ => destruct H
           | H : _ ∈ _ :: _ |- _ => apply elem_of_cons in H
           | H : _ ∈ [] |- _ => apply elem_of_nil in H
           end; by simplify_eq.
  - intros Hin%Htable.
    repeat match goal with
           | H : _ ∨ _ |- _ => destruct H
           | H : _ ∧ _ |- _ => destruct H
           | H : ∃ _, _ |- _ => destruct H
           | H : _ ∈ _ :: _ |- _ => apply elem_of_cons in H
           | H : _ ∈ [] |- _ => apply elem_of_nil in H
           end; simplify_eq; by eauto.
  - intros ms what Hin%Htable.
    repeat match goal with
           | H : _ ∨ _ |- _ => destruct H
           | H : _ ∧ _ |- _ => destruct H
           | H : ∃ _, _ |- _ => destruct H
           | H : _ ∈ _ :: _ |- _ => apply elem_of_cons in H
           | H : _ ∈ [] |- _ => apply elem_of_nil in H
           end; by simplify_eq.
  - intros on Hin%Htable.
    repeat match goal with
           | H : _ ∨ _ |- _ => destruct H
           | H : _ ∧ _ |- _ => destruct H
           | H : ∃ _, _ |- _ => destruct H
           | H : _ ∈ _ :: _ |- _ => apply elem_of_cons in H
           | H : _ ∈ [] |- _ => apply elem_of_nil in H
           end; by simplify_eq.
  - intros [Hid|Hid]; unfold on_button; by rewrite Hid.
Qed.

(** *** The resume command *)

(** [/resume] from the player's voice channel resumes a paused player,
    whoever asks (the requester of the track is not looked at); asked a
    second time it answers that the player is not paused, calls nothing and
    changes nothing. *)
Theorem resume_once (i : resume) (s : state) (p : player) (channel : snowflake) :
  players s !! resume_guild i = Some p → resume_voice i = Some channel →
  voiceId p = Some channel → paused p = true →
  calls (resume_command i s) = [PlayerPause false] ∧
  players (after (resume_command i s)) !! resume_guild i = Some (pause false p) ∧
  resume_command i (after (resume_command i s))
  = answer "The player is not paused!" (after (resume_command i s)).
Proof.
  intros Hp Hvoice Hchannel Hpaused.
  assert (Hfirst : resume_command i s
                   = {| reply := Some "Playback Resumed"; calls := [PlayerPause false];
                        after := set_player (resume_guild i) (pause false p) s |}).
  { unfold resume_command. rewrite Hvoice, Hp, Hpaused.
    by rewrite bool_decide_false by (by intros []). }
  rewrite Hfirst. cbn [calls after]. split; [done|].
  split; [apply lookup_insert_eq|].
  unfold resume_command. rewrite Hvoice. cbn [players set_player].
  rewrite lookup_insert_eq. cbn [voiceId paused pause].
  by rewrite bool_decide_false by (by intros []).
Qed.

Lemma resume_once_witness :
  calls (resume_command {| resume_guild := "g1"; resume_voice := Some "v1" |} halted)
  = [PlayerPause false] ∧
  players (after (resume_command {| resume_guild := "g1"; resume_voice := Some "v1" |}
                    halted)) !! "g1"
  = Some (pause false (pause true (player_of (Some song) [other] true))) ∧
  resume_command {| resume_guild := "g1"; resume_voice := Some "v1" |}
    (after (resume_command {| resume_guild := "g1"; resume_voice := Some "v1" |} halted))
  = answer "The player is not paused!"
      (after (resume_command {| resume_guild := "g1"; resume_voice := Some "v1" |} halted)).
Proof.
  by apply (resume_once {| resume_guild := "g1"; resume_voice := Some "v1" |} halted
              (pause true (player_of (Some song) [other] true)) "v1").
Defined.

End MusicFacts.

(** ** Player exceptions and errors *)

Module PlayerErrorsFacts.

Import Stdlib.Strings.Ascii.
Import Music PlayerErrors.

Lemma remove_bold_other (c : ascii) (rest : string) :
  c ≠ "*"%char → remove_bold (String c rest) = String c (remove_bold rest).
Proof.
  intros Hc. destruct c as [[] [] [] [] [] [] [] []]; try reflexivity.
  all: destruct rest as [|[[] [] [] [] [] [] [] []] rest]; try reflexivity.
  all: by destruct Hc.
Qed.

Lemma includes_cons (c : ascii) (rest needle : string) :
  includes (String c rest) needle = String.prefix needle (String c rest) || includes rest needle.
Proof. done. Qed.

Lemma string_prefix_cons (a b : ascii) (s1 s2 : string) :
  String.prefix (String a s1) (String b s2)
  = if Ascii.ascii_dec a b then String.prefix s1 s2 else false.
Proof. done. Qed.

Lemma bold_prefix_other (c d : ascii) (rest : string) :
  c ≠ "*"%char ∨ d ≠ "*"%char → String.prefix "**" (String c (String d rest)) = false.
Proof.
  intros Hcd. rewrite string_prefix_cons.
  destruct (Ascii.ascii_dec "*" c) as [<-|]; [|done]. rewrite string_prefix_cons.
  destruct (Ascii.ascii_dec "*" d) as [<-|]; [|done]. by destruct Hcd.
Qed.

Lemma bold_prefix_single (c : ascii) : String.prefix "**" (String c "") = false.
Proof. rewrite string_prefix_cons. by destruct (Ascii.ascii_dec "*" c). Qed.

(** Removing the pairs of stars leaves no pair of stars. *)
Lemma remove_bold_plain (text : string) : includes (remove_bold text) "**" = false.
Proof.
  assert (Hlen : ∀ n text, String.length text < n →
                           includes (remove_bold text) "**" = false).
  { clear text. induction n as [|n IH]; intros text Hn; [lia|].
    destruct text as [|c [|d rest]].
    - done.
    - destruct (decide (c = "*"%char)) as [->|Hc]; [done|].
      rewrite remove_bold_other by done.
      change (remove_bold "") with "". by rewrite includes_cons, bold_prefix_single.
    - cbn [String.length] in Hn.
      destruct (decide (c = "*"%char)) as [->|Hc].
      + destruct (decide (d = "*"%char)) as [->|Hd].
        * change (remove_bold (String "*" (String "*" rest))) with (remove_bold rest).
          apply IH. lia.
        * transitivity (includes (String "*" (remove_bold (String d rest))) "**").
          { f_equal. destruct d as [[] [] [] [] [] [] [] []]; try reflexivity.
            by destruct Hd. }
          rewrite includes_cons, (IH (String d rest)) by (cbn [String.length]; lia).
          rewrite remove_bold_other by done.
          by rewrite bold_prefix_other by (by right).
      + rewrite remove_bold_other, includes_cons by done.
        rewrite (IH (String d rest)) by (cbn [String.length]; lia).
        destruct (remove_bold (String d rest)) as [|d' rest'].
        * by rewrite bold_prefix_single.
        * by rewrite bold_prefix_other by (by left). }
  apply (Hlen (S (String.length text))). lia.
Qed.

Lemma on_playerException_shown (w : world) (l : library) (p : player) (e : player_error)
    (s : state) :
  shown (on_playerException w l p e s)
  = if text_channel w
    then Some (Embed (textId p) "Playback Error" (remove_bold (exception_report e).1))
    else None.
Proof.
  unfold on_playerException. destruct (exception_report e) as [text []]; simpl.
  - case_bool_decide; [|done]. by destruct (skip_ends l).
  - done.
Qed.

(** The embed either handler sends goes to the player's text channel, has
    the handler's title, and its description holds no pair of stars,
    whatever the error message was; with the text channel unknown nothing
    is sent. *)
Theorem error_embeds_plain (w : world) (l : library) (p : player) (e : player_error)
    (s : state) :
  (∀ em, shown (on_playerException w l p e s) = Some em →
     embed_channel em = textId p ∧ embed_title em = "Playback Error" ∧
     includes (embed_description em) "**" = false) ∧
  (∀ em, Send em ∈ on_playerError w p e →
     embed_channel em = textId p ∧ embed_title em = "Player Error" ∧
     includes (embed_description em) "**" = false) ∧
  (text_channel w = false →
     shown (on_playerException w l p e s) = None ∧
     ∀ em, Send em ∉ on_playerError w p e).
Proof.
  rewrite on_playerException_shown. unfold on_playerError.
  destruct (text_channel w); (split; [|split]).
  - intros em [= <-]. simpl. split; [done|]. split; [done|]. apply remove_bold_plain.
  - intros em [Hin|Hin]%elem_of_app.
    + apply list_elem_of_singleton in Hin as [= ->]. simpl.
      split; [done|]. split; [done|]. apply remove_bold_plain.
    + destruct (wants_reconnect e); [|by apply elem_of_nil in Hin].
      by apply list_elem_of_singleton in Hin.
  - done.
  - by intros em [=].
  - intros em Hin. simpl in Hin.
    destruct (wants_reconnect e); [|by apply elem_of_nil in Hin].
    by apply list_elem_of_singleton in Hin.
  - intros _. split; [done|]. intros em Hin. simpl in Hin.
    destruct (wants_reconnect e); [|by apply elem_of_nil in Hin].
    by apply list_elem_of_singleton in Hin.
Qed.

(** What a player exception does to the player.  A message that says the
    player was destroyed or not found leads to no recovery, also when it
    names the connection; so does a missing message.  Otherwise, for a
    stuck or failed track and for a connection error, the handler skips
    when tracks are queued and destroys the player when none are; it
    destroys after a skip only when the skip was rejected.  The state
    changes only through a destroy. *)
Theorem exception_recovery (w : world) (l : library) (p : player) (e : player_error)
    (s : state) :
  (∀ m, error_message e = Some m →
     includes m "destroyed" = true ∨ includes m "not found" = true →
     recovery (on_playerException w l p e s) = [] ∧
     left (on_playerException w l p e s) = s) ∧
  (truthy (error_message e) = false →
     recovery (on_playerException w l p e s) = [] ∧
     left (on_playerException w l p e s) = s) ∧
  (∀ m, error_message e = Some m →
     includes m "destroyed" = false → includes m "not found" = false →
     includes m "Track stuck" = true ∨ includes m "load failed" = true ∨
     includes m "Connection" = true ∨ includes m "WebSocket" = true →
     (tracks p = [] → recovery (on_playerException w l p e s) = [PlayerDestroy]) ∧
     (tracks p ≠ [] →
        recovery (on_playerException w l p e s)
        = match skip_ends l with
          | SkipRejects => [PlayerSkip; PlayerDestroy]
          | _ => [PlayerSkip]
          end)) ∧
  ((PlayerDestroy ∉ recovery (on_playerException w l p e s)) →
     left (on_playerException w l p e s) = s) ∧
  (PlayerDestroy ∈ recovery (on_playerException w l p e s) →
     left (on_playerException w l p e s) = destroy_player l p s).
Proof.
  unfold on_playerException, exception_report.
  split; [|split; [|split; [|split]]].
  - intros m Hm Hgone. rewrite Hm. destruct m as [|c m].
    { by destruct Hgone. }
    cbv zeta. cbn [truthy]. change (default "" (Some (String c m))) with (String c m).
    by destruct Hgone as [-> | ->]; rewrite ?orb_true_r.
  - by intros ->.
  - intros m Hm Hd Hn Hkind. rewrite Hm. destruct m as [|c m].
    { by destruct Hkind as [|[|[|]]]. }
    cbv zeta. cbn [truthy]. change (default "" (Some (String c m))) with (String c m).
    rewrite Hd, Hn. cbn [orb].
    assert (Hlen : tracks p = [] ∨ 0 < length (tracks p)).
    { destruct (tracks p); [by left|right; simpl; lia]. }
    destruct (includes _ "Track stuck" || includes _ "load failed") eqn:Hfirst.
    + split.
      * intros ->. by rewrite bool_decide_false by (simpl; lia).
      * intros Hne. destruct Hlen as [|Hlen]; [done|]. rewrite bool_decide_true by done.
        by destruct (skip_ends l).
    + assert (Hsecond : includes (String c m) "Connection"
                        || includes (String c m) "WebSocket" = true).
      { apply orb_false_iff in Hfirst as [H1 H2].
        destruct Hkind as [H|[H|[->| ->]]]; rewrite ?orb_true_r; try done; congruence. }
      rewrite Hsecond. split.
      * intros ->. by rewrite bool_decide_false by (simpl; lia).
      * intros Hne. destruct Hlen as [|Hlen]; [done|]. rewrite bool_decide_true by done.
        by destruct (skip_ends l).
  - intros Hnot.
    repeat match goal with
           | |- context [if ?b then _ else _] => destruct b
           | |- context [match skip_ends l with _ => _ end] => destruct (skip_ends l)
           end; try done; destruct Hnot; simpl; in_list.
  - intros Hin.
    repeat match goal with
           | H : context [if ?b then _ else _] |- _ => destruct b
           | H : context [match skip_ends l with _ => _ end] |- _ => destruct (skip_ends l)
           end; try done; exfalso; revert Hin; not_in_list.
Qed.

Lemma timeline_playerError (w : world) (nodes create : bool) (p : player)
    (e : player_error) (fuel : nat) :
  timeline (S (S (S fuel))) nodes create 0 (on_playerError w p e)
  = (if text_channel w
     then [(0%Z, Send (Embed (textId p) "Player Error" (remove_bold (error_report e))))]
     else []) ++
    (if wants_reconnect e && nodes then
       (5000%Z, Destroy (guildId p)) ::
       (if truthy (voiceId p) && truthy (Some (guildId p)) then
          (7000%Z, CreatePlayer (guildId p) (default "" (voiceId p)) (textId p)) ::
          (if create && text_channel w
           then [(7000%Z, Send (Embed (textId p) "Reconnected"
                                  "Successfully reconnected to the voice channel."))]
           else [])
        else [])
     else []).
Proof.
  unfold on_playerError.
  destruct (text_channel w), (wants_reconnect e), nodes; try reflexivity.
  all: cbn [timeline fire app mbind list_bind andb].
  all: destruct (truthy (voiceId p)), (truthy (Some (guildId p))), create; reflexivity.
Qed.

(** After a player error that calls for a reconnect, with a node connected
    5 seconds later, the player is destroyed then, and 2 seconds after that
    a player is created for the same guild, voice channel and text channel
    (given the player had a voice channel).  No player is created in any
    other way or at any other time; without the call for a reconnect, or
    without a connected node, all the handler does is send its embed. *)
Theorem error_reconnect_chain (w : world) (nodes create : bool) (p : player)
    (e : player_error) (fuel : nat) :
  3 ≤ fuel →
  (∀ τ g v t,
     (τ, CreatePlayer g v t) ∈ timeline fuel nodes create 0 (on_playerError w p e) →
     τ = 7000%Z ∧ g = guildId p ∧ voiceId p = Some v ∧ t = textId p ∧
     wants_reconnect e = true ∧ nodes = true ∧
     (5000%Z, Destroy (guildId p)) ∈ timeline fuel nodes create 0 (on_playerError w p e)) ∧
  (wants_reconnect e = true → nodes = true →
   truthy (voiceId p) = true → guildId p ≠ "" →
     (7000%Z, CreatePlayer (guildId p) (default "" (voiceId p)) (textId p))
     ∈ timeline fuel nodes create 0 (on_playerError w p e)) ∧
  (wants_reconnect e = false ∨ nodes = false →
     ∀ τ a, (τ, a) ∈ timeline fuel nodes create 0 (on_playerError w p e) →
            τ = 0%Z ∧ ∃ em, a = Send em).
Proof.
  intros Hfuel. destruct fuel as [|[|[|fuel]]]; [lia..|].
  rewrite timeline_playerError. split; [|split].
  - intros τ g v t [Hin|Hin]%elem_of_app.
    { destruct (text_channel w); [|by apply elem_of_nil in Hin].
      by apply list_elem_of_singleton in Hin. }
    destruct (wants_reconnect e); [|by apply elem_of_nil in Hin].
    destruct nodes; [|by apply elem_of_nil in Hin]. cbn [andb] in *.
    apply elem_of_cons in Hin as [[=]|Hin].
    destruct (truthy (voiceId p)) eqn:Hvoice; [|by apply elem_of_nil in Hin].
    destruct (truthy (Some (guildId p))); [|by apply elem_of_nil in Hin].
    cbn [andb] in Hin. apply elem_of_cons in Hin as [[= -> -> -> ->]|Hin].
    + split; [done|]. split; [done|]. split.
      { destruct (voiceId p) as [[|c v]|]; done. }
      split; [done|]. split; [done|]. split; [done|].
      apply elem_of_app. right. by left.
    + destruct (create && text_channel w); [|by apply elem_of_nil in Hin].
      by apply list_elem_of_singleton in Hin.
  - intros -> -> -> Hguild. apply elem_of_app. right. cbn [andb].
    destruct (guildId p) as [|c g] eqn:Hg; [done|]. cbn [truthy]. right. by left.
  - intros Hnone τ a [Hin|Hin]%elem_of_app.
    { destruct (text_channel w); [|by apply elem_of_nil in Hin].
      apply list_elem_of_singleton in Hin as [= -> ->]. split; [done|]. by eexists. }
    assert (Hoff : wants_reconnect e && nodes = false).
    { destruct Hnone as [-> | ->]; [done|apply andb_false_r]. }
    rewrite Hoff in Hin. by apply elem_of_nil in Hin.
Qed.

Lemma error_reconnect_chain_witness :
  (7000%Z, CreatePlayer "g1" "v1" "c1")
  ∈ timeline 3 true true 0
      (on_playerError calm (player_of (Some song) [other] true) lost).
Proof.
  destruct (error_reconnect_chain calm true true (player_of (Some song) [other] true)
              lost 3 (le_n 3)) as (_ & Hcreate & _).
  by apply Hcreate.
Defined.

End PlayerErrorsFacts.
